(** * LiquidCrystal_PCF8574: the driver's wire protocol, verified

    A shallow embedding of [src/LiquidCrystal_PCF8574.cpp]: the pin masks
    computed by [init], the enable-pulsed nibble frames of [_send],
    [_sendNibble] and [_write2Wire], the reset handshake of [begin], the
    batched [write(buffer, size)] and the display-state mutators.

    Every [uint8_t] is a [Z] in [0, 256); the wrap-around of the C++
    conversions is written out with [u8] where an [int] expression can leave
    that range.  The calls into the [Wire] object and [delayMicroseconds] are
    logged, in order, as a list of [event]s. *)

From Stdlib Require Import ZArith List Bool Lia.
Import ListNotations.
Local Open Scope Z_scope.

(** ** Bytes *)

Definition is_u8 (x : Z) : Prop := 0 <= x < 256.

(** Conversion of an [int] to [uint8_t]. *)
Definition u8 (x : Z) : Z := x mod 256.

(** A C++ integer used as a condition: true when it is not zero. *)
Definition nz (x : Z) : bool := negb (x =? 0).

(** ** The calls the driver makes, in order *)

Inductive event : Type :=
| WireBegin                          (* Wire.begin() *)
| BeginTransmission (addr : Z)       (* Wire.beginTransmission(addr) *)
| WireWrite (b : Z)                  (* Wire.write(b) *)
| EndTransmission                    (* Wire.endTransmission() *)
| DelayMicroseconds (us : Z).        (* delayMicroseconds(us) *)

(** ** The instance variables

    [_lines] is left unset by the constructors and assigned by [begin].
    The header also declares [bool _rs_state]; no function reads or writes
    it, and it is left out. *)

Record LCD : Type := mkLCD {
  _i2cAddr : Z;
  _backlight : Z;
  _lines : option Z;
  _entrymode : Z;
  _displaycontrol : Z;
  _rs_mask : Z;
  _rw_mask : Z;
  _enable_mask : Z;
  _backlight_mask : Z;
  _data_mask : list Z                (* uint8_t _data_mask[4] *)
}.

(** [_data_mask[i]] for the constant indices the source uses. *)
Definition data_mask (this : LCD) (i : nat) : Z := nth i (_data_mask this) 0.

Definition set_backlight (v : Z) (s : LCD) : LCD :=
  mkLCD (_i2cAddr s) v (_lines s) (_entrymode s) (_displaycontrol s)
        (_rs_mask s) (_rw_mask s) (_enable_mask s) (_backlight_mask s)
        (_data_mask s).

Definition set_lines (v : Z) (s : LCD) : LCD :=
  mkLCD (_i2cAddr s) (_backlight s) (Some v) (_entrymode s) (_displaycontrol s)
        (_rs_mask s) (_rw_mask s) (_enable_mask s) (_backlight_mask s)
        (_data_mask s).

Definition set_entrymode (v : Z) (s : LCD) : LCD :=
  mkLCD (_i2cAddr s) (_backlight s) (_lines s) v (_displaycontrol s)
        (_rs_mask s) (_rw_mask s) (_enable_mask s) (_backlight_mask s)
        (_data_mask s).

Definition set_displaycontrol (v : Z) (s : LCD) : LCD :=
  mkLCD (_i2cAddr s) (_backlight s) (_lines s) (_entrymode s) v
        (_rs_mask s) (_rw_mask s) (_enable_mask s) (_backlight_mask s)
        (_data_mask s).

(** The type invariant of the object: every [uint8_t] field is a byte. *)
Definition wf (s : LCD) : Prop :=
  is_u8 (_i2cAddr s) /\ is_u8 (_backlight s) /\
  is_u8 (_entrymode s) /\ is_u8 (_displaycontrol s) /\
  is_u8 (_rs_mask s) /\ is_u8 (_rw_mask s) /\ is_u8 (_enable_mask s) /\
  is_u8 (_backlight_mask s) /\
  length (_data_mask s) = 4%nat /\ Forall is_u8 (_data_mask s).

(** ** A state, log and undefined-behaviour monad for the member functions

    A member function maps the object to a result, the updated object and
    the calls it made; [None] stands for undefined behaviour (an array read
    out of bounds). *)

Definition M (A : Type) : Type := LCD -> option (A * LCD * list event).

Definition ret {A} (a : A) : M A := fun s => Some (a, s, []).

Definition bind {A B} (m : M A) (f : A -> M B) : M B := fun s =>
  match m s with
  | None => None
  | Some (a, s1, t1) =>
      match f a s1 with
      | None => None
      | Some (b, s2, t2) => Some (b, s2, t1 ++ t2)
      end
  end.

Notation "x <- m ;; k" := (bind m (fun x => k))
  (at level 61, m at next level, right associativity).
Notation "m ;; k" := (bind m (fun _ => k))
  (at level 61, right associativity).

Definition get : M LCD := fun s => Some (s, s, []).
Definition modify (f : LCD -> LCD) : M unit := fun s => Some (tt, f s, []).
Definition emit (e : event) : M unit := fun s => Some (tt, s, [e]).
Definition undefined {A} : M A := fun _ => None.

Definition Wire_begin : M unit := emit WireBegin.
Definition Wire_beginTransmission (addr : Z) : M unit := emit (BeginTransmission addr).
Definition Wire_write (b : Z) : M unit := emit (WireWrite b).
Definition Wire_endTransmission : M unit := emit EndTransmission.
Definition delayMicroseconds (us : Z) : M unit := emit (DelayMicroseconds us).

(** [when c m]: the statement [if (c) m;]. *)
Definition when (c : bool) (m : M unit) : M unit := if c then m else ret tt.

(** [for (i in l) body(i);] *)
Fixpoint forM_ {A} (l : list A) (body : A -> M unit) : M unit :=
  match l with
  | [] => ret tt
  | x :: l' => body x ;; forM_ l' body
  end.

(** ** Construction *)

(** [0x01 << p] stored in a [uint8_t].  The shift is done on [int]; C++
    leaves it undefined once [p] reaches the width of [int], and for every
    smaller [p >= 8] the stored byte is 0, which is what this gives. *)
Definition bit_mask (p : Z) : Z := u8 (Z.shiftl 0x01 p).

Definition init (i2cAddr rs rw enable d4 d5 d6 d7 backlight : Z) : LCD :=
  {| _i2cAddr := i2cAddr;
     _backlight := 0;
     _lines := None;
     _entrymode := 0x02;
     _displaycontrol := 0x04;
     _rs_mask := bit_mask rs;
     _rw_mask := if negb (rw =? 255) then bit_mask rw else 0;
     _enable_mask := bit_mask enable;
     _backlight_mask := if negb (backlight =? 255) then bit_mask backlight else 0;
     _data_mask := [bit_mask d4; bit_mask d5; bit_mask d6; bit_mask d7] |}.

Inductive LiquidCrystal_PCF8574_type : Type :=
| LiquidCrystal_PCF8574_Default
| LiquidCrystal_PCF8574_JOY_IT.

(** [LiquidCrystal_PCF8574(uint8_t i2cAddr)] *)
Definition new_default (i2cAddr : Z) : LCD :=
  init i2cAddr 0 1 2 4 5 6 7 3.

(** [LiquidCrystal_PCF8574(uint8_t i2cAddr, enum LiquidCrystal_PCF8574_type)] *)
Definition new_of_type (i2cAddr : Z) (type : LiquidCrystal_PCF8574_type) : LCD :=
  match type with
  | LiquidCrystal_PCF8574_JOY_IT => init i2cAddr 4 5 7 0 1 2 3 255
  | LiquidCrystal_PCF8574_Default => init i2cAddr 0 1 2 4 5 6 7 3
  end.

(** The constructor without a read/write pin. *)
Definition new_pins (i2cAddr rs enable d4 d5 d6 d7 backlight : Z) : LCD :=
  init i2cAddr rs 255 enable d4 d5 d6 d7 backlight.

(** The constructor with every pin given. *)
Definition new_pins_rw (i2cAddr rs rw enable d4 d5 d6 d7 backlight : Z) : LCD :=
  init i2cAddr rs rw enable d4 d5 d6 d7 backlight.

(** ** Low level functions *)

(** The four [if (value & bit) out |= _data_mask[i];] lines that place one
    nibble of [value], selected by the bits [b0..b3], on the data lines. *)
Definition or_data (this : LCD) (value b0 b1 b2 b3 : Z) (out : Z) : Z :=
  let out := if nz (Z.land value b0) then Z.lor out (data_mask this 0) else out in
  let out := if nz (Z.land value b1) then Z.lor out (data_mask this 1) else out in
  let out := if nz (Z.land value b2) then Z.lor out (data_mask this 2) else out in
  let out := if nz (Z.land value b3) then Z.lor out (data_mask this 3) else out in
  out.

(** [_send(value, isData)]: write either command or data. *)
Definition _send (value : Z) (isData : bool) : M unit :=
  this <- get ;;
  let out := 0 in
  let out := if 0 <? _backlight this then Z.lor out (_backlight_mask this) else out in
  let out := if isData then Z.lor out (_rs_mask this) else out in
  let out1 := out in
  let out := or_data this value 0x10 0x20 0x40 0x80 out in
  Wire_beginTransmission (_i2cAddr this) ;;
  Wire_write (Z.lor out (_enable_mask this)) ;;
  Wire_write out ;;
  let out := out1 in
  let out := or_data this value 0x01 0x02 0x04 0x08 out in
  Wire_write (Z.lor out (_enable_mask this)) ;;
  Wire_write out ;;
  Wire_endTransmission.

(** [_sendNibble(value, isData)]: write a half byte with handshake. *)
Definition _sendNibble (value : Z) (isData : bool) : M unit :=
  this <- get ;;
  let out := 0 in
  let out := if isData then Z.lor out (_rs_mask this) else out in
  let out := if 0 <? _backlight this then Z.lor out (_backlight_mask this) else out in
  let out := or_data this value 0x01 0x02 0x04 0x08 out in
  Wire_beginTransmission (_i2cAddr this) ;;
  Wire_write (Z.lor out (_enable_mask this)) ;;
  Wire_write out ;;
  Wire_endTransmission.

(** [_write2Wire(byte)]: the argument is not used by the body. *)
Definition _write2Wire (byte : Z) : M unit :=
  this <- get ;;
  let out := _rs_mask this in
  let out := if 0 <? _backlight this then Z.lor out (_backlight_mask this) else out in
  Wire_beginTransmission (_i2cAddr this) ;;
  Wire_write out ;;
  Wire_endTransmission.

(** ** The public member functions *)

Definition clear : M unit :=
  _send 0x01 false ;;
  delayMicroseconds 1600.

Definition home : M unit :=
  _send 0x02 false ;;
  delayMicroseconds 1600.

(** [uint8_t row_offsets[] = {0x00, 0x40, 0x14, 0x54};] *)
Definition row_offsets : list Z := [0x00; 0x40; 0x14; 0x54].

(** [row_offsets[row]] past the end of the array is undefined behaviour.
    The sum is an [int]; [_send] receives it converted to [uint8_t]. *)
Definition setCursor (col row : Z) : M unit :=
  match nth_error row_offsets (Z.to_nat row) with
  | Some off => _send (u8 (Z.lor 0x80 (off + col))) false
  | None => undefined
  end.

(** [_displaycontrol |= bit; _send(0x08 | _displaycontrol);] *)
Definition displaycontrol_set (bit : Z) : M unit :=
  modify (fun s => set_displaycontrol (Z.lor (_displaycontrol s) bit) s) ;;
  this <- get ;;
  _send (Z.lor 0x08 (_displaycontrol this)) false.

(** [_displaycontrol &= ~bit; _send(0x08 | _displaycontrol);] *)
Definition displaycontrol_clear (bit : Z) : M unit :=
  modify (fun s => set_displaycontrol (u8 (Z.land (_displaycontrol s) (Z.lnot bit))) s) ;;
  this <- get ;;
  _send (Z.lor 0x08 (_displaycontrol this)) false.

Definition noDisplay : M unit := displaycontrol_clear 0x04.
Definition display : M unit := displaycontrol_set 0x04.
Definition cursor : M unit := displaycontrol_set 0x02.
Definition noCursor : M unit := displaycontrol_clear 0x02.
Definition blink : M unit := displaycontrol_set 0x01.
Definition noBlink : M unit := displaycontrol_clear 0x01.

Definition scrollDisplayLeft : M unit :=
  _send (Z.lor (Z.lor 0x10 0x08) 0x00) false.

Definition scrollDisplayRight : M unit :=
  _send (Z.lor (Z.lor 0x10 0x08) 0x04) false.

(** [_entrymode |= bit; _send(0x04 | _entrymode);] *)
Definition entrymode_set (bit : Z) : M unit :=
  modify (fun s => set_entrymode (Z.lor (_entrymode s) bit) s) ;;
  this <- get ;;
  _send (Z.lor 0x04 (_entrymode this)) false.

(** [_entrymode &= ~bit; _send(0x04 | _entrymode);] *)
Definition entrymode_clear (bit : Z) : M unit :=
  modify (fun s => set_entrymode (u8 (Z.land (_entrymode s) (Z.lnot bit))) s) ;;
  this <- get ;;
  _send (Z.lor 0x04 (_entrymode this)) false.

Definition leftToRight : M unit := entrymode_set 0x02.
Definition rightToLeft : M unit := entrymode_clear 0x02.
Definition autoscroll : M unit := entrymode_set 0x01.
Definition noAutoscroll : M unit := entrymode_clear 0x01.

Definition setBacklight (brightness : Z) : M unit :=
  modify (set_backlight brightness) ;;
  _write2Wire 0x00.

(** [command(value)], inline in the header. *)
Definition command (value : Z) : M unit := _send value false.

(** [write(uint8_t ch)] *)
Definition write (ch : Z) : M Z :=
  _send ch true ;;
  ret 1.

(** [createChar(location, charmap)]: [charmap] is the array the caller
    passes; reading [charmap[i]] past its end is undefined behaviour. *)
Definition createChar (location : Z) (charmap : list Z) : M unit :=
  let location := Z.land location 0x7 in
  _send (Z.lor 0x40 (Z.shiftl location 3)) false ;;
  forM_ (seq 0 8) (fun i =>
    match nth_error charmap i with
    | Some ch => write ch ;; ret tt
    | None => undefined
    end).

(** [createCharPgm(location, charmap)]: the same, the bytes read from
    program memory. *)
Definition createCharPgm (location : Z) (charmap : list Z) : M unit :=
  let location := Z.land location 0x7 in
  _send (Z.lor 0x40 (Z.shiftl location 3)) false ;;
  forM_ (seq 0 8) (fun i =>
    match nth_error charmap i with
    | Some c => write c ;; ret tt
    | None => undefined
    end).

Definition begin (cols lines : Z) : M unit :=
  modify (set_lines lines) ;;
  let functionFlags := 0 in
  let functionFlags := if 1 <? lines then Z.lor functionFlags 0x08 else functionFlags in
  Wire_begin ;;
  _write2Wire 0x00 ;;
  delayMicroseconds 50000 ;;
  modify (set_displaycontrol 0x04) ;;
  modify (set_entrymode 0x02) ;;
  _sendNibble 0x03 false ;;
  delayMicroseconds 4500 ;;
  _sendNibble 0x03 false ;;
  delayMicroseconds 200 ;;
  _sendNibble 0x03 false ;;
  delayMicroseconds 200 ;;
  _sendNibble 0x02 false ;;
  _send (Z.lor 0x20 functionFlags) false ;;
  display ;;
  clear ;;
  leftToRight.

Section Batching.

(** The [Wire] library's transmit buffer size, a macro of [Wire.h]. *)
Variable BUFFER_LENGTH : Z.

(** The [while (size--)] loop of [write(buffer, size)]; [buffer] holds the
    [size] bytes still to be sent, [c] is the [uint8_t] count of bytes in
    the open transmission.  The final value of [c] is returned. *)
Fixpoint write_loop (buffer : list Z) (out1 : Z) (c : Z) : M Z :=
  match buffer with
  | [] => ret c
  | value :: buffer' =>
      this <- get ;;
      let out := out1 in
      let out := or_data this value 0x10 0x20 0x40 0x80 out in
      when (c =? 0) (Wire_beginTransmission (_i2cAddr this)) ;;
      Wire_write (Z.lor out (_enable_mask this)) ;;
      Wire_write out ;;
      let out := out1 in
      let out := or_data this value 0x01 0x02 0x04 0x08 out in
      Wire_write (Z.lor out (_enable_mask this)) ;;
      Wire_write out ;;
      let c := u8 (c + 4) in
      if BUFFER_LENGTH - 4 <=? c
      then Wire_endTransmission ;; write_loop buffer' out1 0
      else write_loop buffer' out1 c
  end.

(** [write(const uint8_t *buffer, size_t size)]: [buffer] is the list of
    the [size] bytes at the pointer. *)
Definition write_buf (buffer : list Z) : M Z :=
  this <- get ;;
  let n := Z.of_nat (length buffer) in
  let c := 0 in
  let out := _rs_mask this in
  let out := if 0 <? _backlight this then Z.lor out (_backlight_mask this) else out in
  let out1 := out in
  c <- write_loop buffer out1 c ;;
  when (nz c) Wire_endTransmission ;;
  ret n.

(** The public operations as data, to speak of every call sequence. *)
Inductive op : Type :=
| Begin (cols lines : Z)
| Clear
| Home
| SetCursor (col row : Z)
| NoDisplay
| Display
| Cursor
| NoCursor
| Blink
| NoBlink
| ScrollDisplayLeft
| ScrollDisplayRight
| LeftToRight
| RightToLeft
| Autoscroll
| NoAutoscroll
| SetBacklight (brightness : Z)
| CreateChar (location : Z) (charmap : list Z)
| CreateCharPgm (location : Z) (charmap : list Z)
| Command (value : Z)
| Write (ch : Z)
| WriteBuf (buffer : list Z).

Definition run (o : op) : M unit :=
  match o with
  | Begin cols lines => begin cols lines
  | Clear => clear
  | Home => home
  | SetCursor col row => setCursor col row
  | NoDisplay => noDisplay
  | Display => display
  | Cursor => cursor
  | NoCursor => noCursor
  | Blink => blink
  | NoBlink => noBlink
  | ScrollDisplayLeft => scrollDisplayLeft
  | ScrollDisplayRight => scrollDisplayRight
  | LeftToRight => leftToRight
  | RightToLeft => rightToLeft
  | Autoscroll => autoscroll
  | NoAutoscroll => noAutoscroll
  | SetBacklight brightness => setBacklight brightness
  | CreateChar location charmap => createChar location charmap
  | CreateCharPgm location charmap => createCharPgm location charmap
  | Command value => command value
  | Write ch => write ch ;; ret tt
  | WriteBuf buffer => write_buf buffer ;; ret tt
  end.

(** A program: one call after the other. *)
Definition run_all (os : list op) : M unit := forM_ os run.

End Batching.

(** ** Observing the bus *)

(** The bytes handed to [Wire.write], in order. *)
Definition written (t : list event) : list Z :=
  flat_map (fun e => match e with WireWrite b => [b] | _ => [] end) t.

(** The bus while a log is replayed: the transactions already ended, and
    the bytes of the one that is open, if any. *)
Definition bus : Type := (list (list Z) * option (list Z))%type.

Definition wire_step (s : bus) (e : event) : option bus :=
  match e, s with
  | BeginTransmission _, (done, None) => Some (done, Some [])
  | WireWrite b, (done, Some cur) => Some (done, Some (cur ++ [b]))
  | EndTransmission, (done, Some cur) => Some (done ++ [cur], None)
  | WireBegin, _ => Some s
  | DelayMicroseconds _, _ => Some s
  | _, _ => None
  end.

Fixpoint wire_run (s : bus) (t : list event) : option bus :=
  match t with
  | [] => Some s
  | e :: t' =>
      match wire_step s e with
      | Some s' => wire_run s' t'
      | None => None
      end
  end.

(** The bus transactions of a log: defined when every byte is written
    inside a transmission and every transmission is ended. *)
Definition transactions (t : list event) : option (list (list Z)) :=
  match wire_run ([], None) t with
  | Some (done, None) => Some done
  | _ => None
  end.

Definition total_bytes (txs : list (list Z)) : Z :=
  fold_right (fun tx acc => Z.of_nat (length tx) + acc) 0 txs.

(** ** The wire-level contract, in the words of the specification *)

(** [base = (backlight_on ? backlight_mask : 0) | (rs ? rs_mask : 0)] *)
Definition spec_base (this : LCD) (isData : bool) : Z :=
  Z.lor (if 0 <? _backlight this then _backlight_mask this else 0)
        (if isData then _rs_mask this else 0).

(** [base] OR'd with [data_mask[i]] for each set bit [first + i] of [v]. *)
Definition spec_nibble (this : LCD) (v : Z) (first : Z) (base : Z) : Z :=
  fold_left
    (fun acc i => if Z.testbit v (first + Z.of_nat i)
                  then Z.lor acc (data_mask this i) else acc)
    (seq 0 4) base.

Definition spec_high (this : LCD) (v : Z) (isData : bool) : Z :=
  spec_nibble this v 4 (spec_base this isData).

Definition spec_low (this : LCD) (v : Z) (isData : bool) : Z :=
  spec_nibble this v 0 (spec_base this isData).

(** [emit: high|enable_mask, high, low|enable_mask, low] *)
Definition spec_frame (this : LCD) (v : Z) (isData : bool) : list Z :=
  [ Z.lor (spec_high this v isData) (_enable_mask this);
    spec_high this v isData;
    Z.lor (spec_low this v isData) (_enable_mask this);
    spec_low this v isData ].

(** The log of one instruction sent in a transaction of its own. *)
Definition frame_log (this : LCD) (v : Z) (isData : bool) : list event :=
  BeginTransmission (_i2cAddr this)
    :: map WireWrite (spec_frame this v isData) ++ [EndTransmission].

(** The log of one raw nibble. *)
Definition nibble_log (this : LCD) (v : Z) (isData : bool) : list event :=
  [ BeginTransmission (_i2cAddr this);
    WireWrite (Z.lor (spec_low this v isData) (_enable_mask this));
    WireWrite (spec_low this v isData);
    EndTransmission ].

(** The log of [begin]: the calls of the reset handshake, in order. *)
Definition begin_log (s : LCD) (lines : Z) : list event :=
  [ WireBegin;
    BeginTransmission (_i2cAddr s);
    WireWrite (Z.lor (_rs_mask s) (if 0 <? _backlight s then _backlight_mask s else 0));
    EndTransmission;
    DelayMicroseconds 50000 ]
  ++ nibble_log s 0x03 false ++ [DelayMicroseconds 4500]
  ++ nibble_log s 0x03 false ++ [DelayMicroseconds 200]
  ++ nibble_log s 0x03 false ++ [DelayMicroseconds 200]
  ++ nibble_log s 0x02 false
  ++ frame_log s (if 1 <? lines then 0x28 else 0x20) false
  ++ frame_log s 0x0C false
  ++ frame_log s 0x01 false ++ [DelayMicroseconds 1600]
  ++ frame_log s 0x06 false.

(** The four bytes of one character inside [write(buffer, size)], over
    the base byte [out1] computed before the loop. *)
Definition data_frame (this : LCD) (out1 : Z) (v : Z) : list Z :=
  [ Z.lor (spec_nibble this v 4 out1) (_enable_mask this);
    spec_nibble this v 4 out1;
    Z.lor (spec_nibble this v 0 out1) (_enable_mask this);
    spec_nibble this v 0 out1 ].

(** The bytes of the transmission that is open, none when none is. *)
Definition open_bytes (cur : option (list Z)) : list Z :=
  match cur with
  | Some l => l
  | None => []
  end.

(** What holds at the head of the [while] loop for a frame bound [bound]:
    [c] counts the bytes of the open transmission and is below the flush
    threshold, and [c == 0] exactly when no transmission is open. *)
Definition loop_inv (bound : Z) (c : Z) (cur : option (list Z)) : Prop :=
  match cur with
  | None => c = 0
  | Some l => 0 < c < bound - 4 /\ Z.of_nat (length l) = c /\ c mod 4 = 0
  end.

(** The count at which the loop ends a transmission for a frame bound
    [bound]: the first multiple of 4, from 4 on, that is at least
    [bound - 4]. *)
Definition chunk_bytes (bound : Z) : Z := Z.max 4 (4 * ((bound - 1) / 4)).

(** Two bytes differ at most in the bits of [mask]. *)
Definition differ_only_in (mask a b : Z) : Prop :=
  forall k, Z.testbit mask k = false -> Z.testbit a k = Z.testbit b k.

(** ** The logical signals and their pins *)

Inductive signal : Type := RS | RW | EN | D4 | D5 | D6 | D7 | BL.

Record pins : Type := mkPins {
  pin_rs : Z; pin_rw : Z; pin_enable : Z;
  pin_d4 : Z; pin_d5 : Z; pin_d6 : Z; pin_d7 : Z;
  pin_backlight : Z
}.

Definition pin_of (p : pins) (s : signal) : Z :=
  match s with
  | RS => pin_rs p | RW => pin_rw p | EN => pin_enable p
  | D4 => pin_d4 p | D5 => pin_d5 p | D6 => pin_d6 p | D7 => pin_d7 p
  | BL => pin_backlight p
  end.

Definition mask_of (this : LCD) (s : signal) : Z :=
  match s with
  | RS => _rs_mask this | RW => _rw_mask this | EN => _enable_mask this
  | D4 => data_mask this 0 | D5 => data_mask this 1
  | D6 => data_mask this 2 | D7 => data_mask this 3
  | BL => _backlight_mask this
  end.

(** The signals whose pin may be the sentinel 255, "not connected". *)
Definition optional (s : signal) : bool :=
  match s with RW | BL => true | _ => false end.

(** [init] applied to a pin assignment. *)
Definition init_pins (i2cAddr : Z) (p : pins) : LCD :=
  init i2cAddr (pin_rs p) (pin_rw p) (pin_enable p)
       (pin_d4 p) (pin_d5 p) (pin_d6 p) (pin_d7 p) (pin_backlight p).

(** The default wiring of the one-argument constructor. *)
Definition default_pins : pins := mkPins 0 1 2 4 5 6 7 3.

(** A constructor call seen as an operation that could report a
    configuration error ([None]).  The constructors of the source have no
    failure path: they always deliver the object [init] fills in. *)
Definition construct (i2cAddr : Z) (p : pins) : option LCD :=
  Some (init_pins i2cAddr p).

(** Two signals are wired to the same bit of the expander. *)
Definition conflicting (p : pins) : Prop :=
  exists s1 s2, s1 <> s2 /\ pin_of p s1 = pin_of p s2 /\ 0 <= pin_of p s1 <= 7.

(** ** Predicates the theorems are stated with *)

(** The log of a call, when the call is defined. *)
Definition log_of {A} (r : option (A * LCD * list event)) : option (list event) :=
  match r with
  | Some (_, _, t) => Some t
  | None => None
  end.

(** The object after a call, when the call is defined. *)
Definition state_of {A} (r : option (A * LCD * list event)) : option LCD :=
  match r with
  | Some (_, s, _) => Some s
  | None => None
  end.

(** Two objects that differ at most in the magnitude of the stored
    backlight level, both on or both off. *)
Definition same_light (s1 s2 : LCD) : Prop :=
  set_backlight 0 s1 = set_backlight 0 s2 /\
  (0 <? _backlight s1) = (0 <? _backlight s2).

(** The read/write line is low in the output byte [b]. *)
Definition rw_clear (this : LCD) (b : Z) : Prop := Z.land b (_rw_mask this) = 0.

(** The read/write pin is not connected, or no other signal is wired to it. *)
Definition rw_apart (p : pins) : Prop :=
  pin_rw p = 255 \/
  forall s, s <> RW -> pin_of p s <> pin_rw p.

(** The calls that only send: they have no assignment to a member. *)
Definition sends_only (o : op) : bool :=
  match o with
  | Clear | Home | SetCursor _ _ | ScrollDisplayLeft | ScrollDisplayRight
  | CreateChar _ _ | CreateCharPgm _ _ | Write _ | WriteBuf _ => true
  | _ => false
  end.

(** The arguments keep every array read of the call in bounds. *)
Definition in_bounds (o : op) : Prop :=
  match o with
  | SetCursor _ row => 0 <= row <= 3
  | CreateChar _ charmap => (8 <= length charmap)%nat
  | CreateCharPgm _ charmap => (8 <= length charmap)%nat
  | _ => True
  end.

(** A call that, started from an object satisfying [I], is defined, ends in
    an object satisfying [I] with a result satisfying [Q], and hands only
    bytes satisfying [B] to [Wire.write]. *)
Definition sends (I : LCD -> Prop) (B : Z -> Prop) {A} (Q : A -> Prop) (m : M A) : Prop :=
  forall s, I s ->
    exists a s' t, m s = Some (a, s', t) /\ I s' /\ Q a /\ Forall B (written t).

(** The masks of [s] are those of [s0]. *)
Definition same_masks (s0 s : LCD) : Prop :=
  _rs_mask s = _rs_mask s0 /\ _rw_mask s = _rw_mask s0 /\
  _enable_mask s = _enable_mask s0 /\ _backlight_mask s = _backlight_mask s0 /\
  _data_mask s = _data_mask s0.

(** Two outcomes with the same log, ending in objects that differ at most
    in the magnitude of the backlight level. *)
Definition light_rel {A} (r1 r2 : option (A * LCD * list event)) : Prop :=
  match r1, r2 with
  | Some (a1, s1, t1), Some (a2, s2, t2) => a1 = a2 /\ same_light s1 s2 /\ t1 = t2
  | None, None => True
  | _, _ => False
  end.

(** A call whose log does not depend on the magnitude of the stored
    backlight level. *)
Definition lightM {A} (m : M A) : Prop :=
  forall s1 s2, same_light s1 s2 -> light_rel (m s1) (m s2).

(** ** Further observations *)

(** The nibble that the data lines of the output byte [b] carry, as the
    display reads it from D4..D7. *)
Definition decode_nibble (this : LCD) (b : Z) : Z :=
  (if nz (Z.land b (data_mask this 0)) then 1 else 0) +
  (if nz (Z.land b (data_mask this 1)) then 2 else 0) +
  (if nz (Z.land b (data_mask this 2)) then 4 else 0) +
  (if nz (Z.land b (data_mask this 3)) then 8 else 0).

(** The instruction byte the display latches from the two falling edges
    of a four-byte frame. *)
Definition decode_frame (this : LCD) (f : list Z) : option Z :=
  match f with
  | [_; high; _; low] =>
      Some (16 * decode_nibble this high + decode_nibble this low)
  | _ => None
  end.

Definition data_signal (s : signal) : bool :=
  match s with D4 | D5 | D6 | D7 => true | _ => false end.

(** Every data line has a bit of its own: its pin is in [0,7] and no other
    data line, nor register select, nor the backlight, is wired to it. *)
Definition data_lines_apart (p : pins) : Prop :=
  (forall d, data_signal d = true -> 0 <= pin_of p d <= 7) /\
  (forall d s, data_signal d = true -> s <> d -> s <> RW -> s <> EN ->
     pin_of p s <> pin_of p d).

(** The signal behind [_data_mask[i]]. *)
Definition data_line (i : nat) : signal :=
  match i with
  | 0%nat => D4 | 1%nat => D5 | 2%nat => D6 | _ => D7
  end.

(** The bits of the expander that some signal other than read/write is
    wired to. *)
Definition wired (this : LCD) : Z :=
  Z.lor (_rs_mask this)
    (Z.lor (_enable_mask this)
       (Z.lor (_backlight_mask this)
          (Z.lor (data_mask this 0)
             (Z.lor (data_mask this 1)
                (Z.lor (data_mask this 2) (data_mask this 3)))))).

(** The byte [b] raises wired bits only. *)
Definition within (mask b : Z) : Prop := Z.land b mask = b.

(** Every transmission of the log is addressed to [addr]. *)
Definition addressed (addr : Z) (t : list event) : Prop :=
  Forall (fun e => match e with BeginTransmission a => a = addr | _ => True end) t.

(** A log that finds the bus idle and leaves it idle, all of its
    transmissions addressed to [addr]. *)
Definition idle_log (addr : Z) (t : list event) : Prop :=
  (exists txs, transactions t = Some txs) /\ addressed addr t.

(** The object a call leaves behind, read off the assignments of each
    member function. *)
Definition post (o : op) (s : LCD) : LCD :=
  match o with
  | Begin _ lines => set_entrymode 0x02 (set_displaycontrol 0x04 (set_lines lines s))
  | NoDisplay => set_displaycontrol (u8 (Z.land (_displaycontrol s) (Z.lnot 0x04))) s
  | Display => set_displaycontrol (Z.lor (_displaycontrol s) 0x04) s
  | Cursor => set_displaycontrol (Z.lor (_displaycontrol s) 0x02) s
  | NoCursor => set_displaycontrol (u8 (Z.land (_displaycontrol s) (Z.lnot 0x02))) s
  | Blink => set_displaycontrol (Z.lor (_displaycontrol s) 0x01) s
  | NoBlink => set_displaycontrol (u8 (Z.land (_displaycontrol s) (Z.lnot 0x01))) s
  | LeftToRight => set_entrymode (Z.lor (_entrymode s) 0x02) s
  | RightToLeft => set_entrymode (u8 (Z.land (_entrymode s) (Z.lnot 0x02))) s
  | Autoscroll => set_entrymode (Z.lor (_entrymode s) 0x01) s
  | NoAutoscroll => set_entrymode (u8 (Z.land (_entrymode s) (Z.lnot 0x01))) s
  | SetBacklight brightness => set_backlight brightness s
  | _ => s
  end.

(** The calls that assign [_displaycontrol], and those that assign
    [_entrymode]. *)
Definition assigns_displaycontrol (o : op) : bool :=
  match o with
  | Begin _ _ | NoDisplay | Display | Cursor | NoCursor | Blink | NoBlink => true
  | _ => false
  end.

Definition assigns_entrymode (o : op) : bool :=
  match o with
  | Begin _ _ | LeftToRight | RightToLeft | Autoscroll | NoAutoscroll => true
  | _ => false
  end.

(** The flag bytes hold flag bits only. *)
Definition flags_ok (s : LCD) : Prop :=
  0 <= _displaycontrol s <= 7 /\ 0 <= _entrymode s <= 3.

(** The bit a flag function sets or clears in its flag byte: the position
    and the new value. *)
Definition flag_effect (o : op) : option (Z * bool) :=
  match o with
  | NoDisplay => Some (2, false) | Display => Some (2, true)
  | NoCursor => Some (1, false) | Cursor => Some (1, true)
  | NoBlink => Some (0, false) | Blink => Some (0, true)
  | RightToLeft => Some (1, false) | LeftToRight => Some (1, true)
  | NoAutoscroll => Some (0, false) | Autoscroll => Some (0, true)
  | _ => None
  end.

(** The flag byte a flag function works on, and the instruction it sends
    the byte under. *)
Definition flag_byte (o : op) (s : LCD) : Z :=
  if assigns_displaycontrol o then _displaycontrol s else _entrymode s.

Definition flag_instruction (o : op) : Z :=
  if assigns_displaycontrol o then 0x08 else 0x04.

(** The backlight has a bit of its own: no register-select, enable or
    data mask overlaps the backlight mask. *)
Definition light_apart (s : LCD) : Prop :=
  Z.land (_rs_mask s) (_backlight_mask s) = 0 /\
  Z.land (_enable_mask s) (_backlight_mask s) = 0 /\
  forall i, Z.land (data_mask s i) (_backlight_mask s) = 0.

(** The backlight bit of the byte [b] is high exactly when the stored
    level is above zero. *)
Definition light_follows (s : LCD) (b : Z) : Prop :=
  Z.land b (_backlight_mask s) =
  if 0 <? _backlight s then _backlight_mask s else 0.

(** The value of a byte rebuilt from its eight bits. *)
Definition of_bits (v : Z) : Z :=
  16 * ((if Z.testbit v 4 then 1 else 0) + (if Z.testbit v 5 then 2 else 0) +
        (if Z.testbit v 6 then 4 else 0) + (if Z.testbit v 7 then 8 else 0)) +
  ((if Z.testbit v 0 then 1 else 0) + (if Z.testbit v 1 then 2 else 0) +
   (if Z.testbit v 2 then 4 else 0) + (if Z.testbit v 3 then 8 else 0)).

(** ** Basic facts on bytes and bits *)

Lemma land_pow2 (v k : Z) :
  0 <= k -> Z.land v (2 ^ k) = if Z.testbit v k then 2 ^ k else 0.
Proof.
  intros Hk. apply Z.bits_inj'. intros n Hn.
  rewrite Z.land_spec, Z.pow2_bits_eqb by assumption.
  destruct (Z.eqb_spec k n) as [->|Hne].
  - rewrite andb_true_r. destruct (Z.testbit v n) eqn:E.
    + rewrite Z.pow2_bits_eqb, Z.eqb_refl by assumption. reflexivity.
    + rewrite Z.bits_0. reflexivity.
  - rewrite andb_false_r. destruct (Z.testbit v k).
    + rewrite Z.pow2_bits_eqb by assumption.
      symmetry. apply Z.eqb_neq. assumption.
    + rewrite Z.bits_0. reflexivity.
Qed.

Lemma nz_land_pow2 (v k : Z) :
  0 <= k -> nz (Z.land v (2 ^ k)) = Z.testbit v k.
Proof.
  intros Hk. rewrite land_pow2 by assumption. unfold nz.
  destruct (Z.testbit v k); [|reflexivity].
  assert (0 < 2 ^ k) by (apply Z.pow_pos_nonneg; lia).
  destruct (Z.eqb_spec (2 ^ k) 0); [lia | reflexivity].
Qed.

Lemma or_data_high (this : LCD) (v out : Z) :
  or_data this v 0x10 0x20 0x40 0x80 out = spec_nibble this v 4 out.
Proof.
  unfold or_data, spec_nibble. simpl fold_left.
  change 0x10 with (2 ^ 4). change 0x20 with (2 ^ 5).
  change 0x40 with (2 ^ 6). change 0x80 with (2 ^ 7).
  rewrite !nz_land_pow2 by lia. reflexivity.
Qed.

Lemma or_data_low (this : LCD) (v out : Z) :
  or_data this v 0x01 0x02 0x04 0x08 out = spec_nibble this v 0 out.
Proof.
  unfold or_data, spec_nibble. simpl fold_left.
  change 0x01 with (2 ^ 0). change 0x02 with (2 ^ 1).
  change 0x04 with (2 ^ 2). change 0x08 with (2 ^ 3).
  rewrite !nz_land_pow2 by lia. reflexivity.
Qed.

Lemma base_of_send (this : LCD) (isData : bool) :
  (let out := 0 in
   let out := if 0 <? _backlight this then Z.lor out (_backlight_mask this) else out in
   let out := if isData then Z.lor out (_rs_mask this) else out in
   out) = spec_base this isData.
Proof.
  unfold spec_base. cbv zeta.
  destruct (0 <? _backlight this), isData;
    rewrite ?Z.lor_0_l, ?Z.lor_0_r; reflexivity.
Qed.

Lemma base_of_sendNibble (this : LCD) (isData : bool) :
  (let out := 0 in
   let out := if isData then Z.lor out (_rs_mask this) else out in
   let out := if 0 <? _backlight this then Z.lor out (_backlight_mask this) else out in
   out) = spec_base this isData.
Proof.
  unfold spec_base. cbv zeta.
  destruct (0 <? _backlight this), isData;
    rewrite ?Z.lor_0_l, ?Z.lor_0_r; try reflexivity.
  apply Z.lor_comm.
Qed.

(** ** What the low level functions log *)

Lemma _send_run (v : Z) (isData : bool) (s : LCD) :
  _send v isData s = Some (tt, s, frame_log s v isData).
Proof.
  unfold _send, bind, get, Wire_beginTransmission, Wire_write,
    Wire_endTransmission, emit. cbv zeta.
  rewrite or_data_high, or_data_low.
  pose proof (base_of_send s isData) as Hb. cbv zeta in Hb. rewrite Hb.
  reflexivity.
Qed.

Lemma _sendNibble_run (v : Z) (isData : bool) (s : LCD) :
  _sendNibble v isData s = Some (tt, s, nibble_log s v isData).
Proof.
  unfold _sendNibble, bind, get, Wire_beginTransmission, Wire_write,
    Wire_endTransmission, emit. cbv zeta.
  rewrite or_data_low.
  pose proof (base_of_sendNibble s isData) as Hb. cbv zeta in Hb. rewrite Hb.
  reflexivity.
Qed.

Lemma _write2Wire_run (byte : Z) (s : LCD) :
  _write2Wire byte s =
  Some (tt, s, [ BeginTransmission (_i2cAddr s);
                 WireWrite (Z.lor (_rs_mask s)
                              (if 0 <? _backlight s then _backlight_mask s else 0));
                 EndTransmission ]).
Proof.
  unfold _write2Wire, bind, get, Wire_beginTransmission, Wire_write,
    Wire_endTransmission, emit. cbv zeta.
  destruct (0 <? _backlight s); rewrite ?Z.lor_0_r; reflexivity.
Qed.

Lemma lor_u8 (a b : Z) : is_u8 a -> is_u8 b -> is_u8 (Z.lor a b).
Proof.
  unfold is_u8. intros [Ha Ha'] [Hb Hb']. split.
  - apply Z.lor_nonneg. lia.
  - destruct (Z.eq_dec (Z.lor a b) 0) as [->|Hne]; [lia|].
    apply Z.log2_lt_cancel. rewrite Z.log2_lor by assumption.
    change (Z.log2 256) with 8.
    assert (Z.log2 a < 8).
    { destruct (Z.eq_dec a 0) as [->|]; [simpl; lia|].
      apply Z.log2_lt_pow2; lia. }
    assert (Z.log2 b < 8).
    { destruct (Z.eq_dec b 0) as [->|]; [simpl; lia|].
      apply Z.log2_lt_pow2; lia. }
    lia.
Qed.

Lemma data_mask_u8 (s : LCD) (i : nat) : wf s -> is_u8 (data_mask s i).
Proof.
  intros (_ & _ & _ & _ & _ & _ & _ & _ & _ & Hd). unfold data_mask.
  destruct (Nat.lt_ge_cases i (length (_data_mask s))) as [Hi|Hi].
  - rewrite Forall_forall in Hd. apply Hd. apply nth_In. assumption.
  - rewrite nth_overflow by assumption. unfold is_u8. lia.
Qed.

Lemma spec_base_u8 (s : LCD) (isData : bool) : wf s -> is_u8 (spec_base s isData).
Proof.
  intros Hwf. pose proof Hwf as (_ & _ & _ & _ & Hrs & _ & _ & Hbl & _).
  unfold spec_base. apply lor_u8.
  - destruct (0 <? _backlight s); [assumption | unfold is_u8; lia].
  - destruct isData; [assumption | unfold is_u8; lia].
Qed.

Lemma spec_nibble_u8 (s : LCD) (v first base : Z) :
  wf s -> is_u8 base -> is_u8 (spec_nibble s v first base).
Proof.
  intros Hwf Hb. unfold spec_nibble. simpl fold_left.
  repeat match goal with
  | |- context [if ?c then _ else _] => destruct c
  end; repeat apply lor_u8; auto using data_mask_u8.
Qed.

Lemma differ_only_in_lor (h en : Z) : differ_only_in en (Z.lor h en) h.
Proof.
  intros k Hk. rewrite Z.lor_spec, Hk. apply orb_false_r.
Qed.

(** C1. For every 8-bit instruction value [v], every register-select flag
    and every stored backlight level, [_send(v, isData)] leaves the object
    as it is and emits, inside one transmission to the device, exactly the
    four bytes [high|enable_mask, high, low|enable_mask, low] of the
    specification's wire-level contract; all four are bytes, and each
    enable-high byte differs from the byte after it at most in the bits of
    the enable mask. *)
Theorem send_emits_frame (s : LCD) (v : Z) (isData : bool) :
  wf s -> is_u8 v ->
  _send v isData s =
    Some (tt, s,
          BeginTransmission (_i2cAddr s)
            :: map WireWrite
                 [ Z.lor (spec_high s v isData) (_enable_mask s);
                   spec_high s v isData;
                   Z.lor (spec_low s v isData) (_enable_mask s);
                   spec_low s v isData ]
            ++ [EndTransmission]) /\
  Forall is_u8 (spec_frame s v isData) /\
  differ_only_in (_enable_mask s)
    (Z.lor (spec_high s v isData) (_enable_mask s)) (spec_high s v isData) /\
  differ_only_in (_enable_mask s)
    (Z.lor (spec_low s v isData) (_enable_mask s)) (spec_low s v isData).
Proof.
  intros Hwf Hv. rewrite _send_run. unfold frame_log.
  split; [reflexivity|].
  split; [|split; apply differ_only_in_lor].
  pose proof Hwf as (_ & _ & _ & _ & _ & _ & Hen & _).
  assert (Hh : is_u8 (spec_high s v isData))
    by (apply spec_nibble_u8; auto using spec_base_u8).
  assert (Hl : is_u8 (spec_low s v isData))
    by (apply spec_nibble_u8; auto using spec_base_u8).
  unfold spec_frame.
  repeat (apply Forall_cons; [auto using lor_u8|]). apply Forall_nil.
Qed.

(** ** The masks [init] stores *)

Lemma bit_mask_low (p : Z) : 0 <= p <= 7 -> bit_mask p = Z.shiftl 1 p.
Proof.
  intros Hp. unfold bit_mask, u8. rewrite Z.shiftl_1_l.
  apply Z.mod_small. split.
  - apply Z.pow_nonneg. lia.
  - change 256 with (2 ^ 8). apply Z.pow_lt_mono_r; lia.
Qed.

Lemma bit_mask_u8 (p : Z) : is_u8 (bit_mask p).
Proof. unfold bit_mask, u8, is_u8. apply Z.mod_pos_bound. lia. Qed.

Lemma shiftl1_disjoint (a b : Z) :
  0 <= a -> 0 <= b -> a <> b -> Z.land (Z.shiftl 1 a) (Z.shiftl 1 b) = 0.
Proof.
  intros Ha Hb Hab. rewrite !Z.shiftl_1_l, land_pow2 by assumption.
  rewrite Z.pow2_bits_eqb by assumption.
  destruct (Z.eqb_spec a b); [contradiction | reflexivity].
Qed.

Lemma mask_of_init (i2cAddr : Z) (p : pins) (s : signal) :
  mask_of (init_pins i2cAddr p) s =
  if optional s && (pin_of p s =? 255) then 0 else bit_mask (pin_of p s).
Proof.
  destruct s; simpl; try reflexivity.
  - destruct (pin_rw p =? 255); reflexivity.
  - destruct (pin_backlight p =? 255); reflexivity.
Qed.

Lemma init_wf (i2cAddr : Z) (p : pins) : is_u8 i2cAddr -> wf (init_pins i2cAddr p).
Proof.
  intros Ha. unfold wf, init_pins, init; simpl.
  assert (is_u8 0) by (unfold is_u8; lia).
  repeat split; try assumption; try apply bit_mask_u8;
    try (unfold is_u8 in *; lia).
  - destruct (pin_rw p =? 255); simpl; [lia | apply bit_mask_u8].
  - destruct (pin_rw p =? 255); simpl; [lia | apply bit_mask_u8].
  - destruct (pin_backlight p =? 255); simpl; [lia | apply bit_mask_u8].
  - destruct (pin_backlight p =? 255); simpl; [lia | apply bit_mask_u8].
  - repeat (apply Forall_cons; [apply bit_mask_u8|]). apply Forall_nil.
Qed.

(** C7. For every pin assignment whose positions are all in [0,7] (255
    allowed for the optional rw and backlight signals), each stored mask is
    [1 << position], the mask of a signal at the sentinel 255 is 0, and any
    two signals at different positions have disjoint masks. *)
Theorem init_masks_disjoint (i2cAddr : Z) (p : pins) :
  (forall s, 0 <= pin_of p s <= 7 \/ (optional s = true /\ pin_of p s = 255)) ->
  (forall s, 0 <= pin_of p s <= 7 ->
     mask_of (init_pins i2cAddr p) s = Z.shiftl 1 (pin_of p s)) /\
  (forall s, optional s = true -> pin_of p s = 255 ->
     mask_of (init_pins i2cAddr p) s = 0) /\
  (forall s1 s2, pin_of p s1 <> pin_of p s2 ->
     Z.land (mask_of (init_pins i2cAddr p) s1)
            (mask_of (init_pins i2cAddr p) s2) = 0).
Proof.
  intros Hrange.
  assert (Hlow : forall s, 0 <= pin_of p s <= 7 ->
            mask_of (init_pins i2cAddr p) s = Z.shiftl 1 (pin_of p s)).
  { intros s Hs. rewrite mask_of_init.
    destruct (Z.eqb_spec (pin_of p s) 255) as [E|_]; [lia|].
    rewrite andb_false_r. apply bit_mask_low. assumption. }
  assert (Hnc : forall s, optional s = true -> pin_of p s = 255 ->
            mask_of (init_pins i2cAddr p) s = 0).
  { intros s Ho Hs. rewrite mask_of_init, Ho, Hs. reflexivity. }
  split; [exact Hlow|]. split; [exact Hnc|].
  intros s1 s2 Hne.
  destruct (Hrange s1) as [H1|[O1 H1]], (Hrange s2) as [H2|[O2 H2]].
  - rewrite (Hlow s1 H1), (Hlow s2 H2). apply shiftl1_disjoint; lia.
  - rewrite (Hnc s2 O2 H2). apply Z.land_0_r.
  - rewrite (Hnc s1 O1 H1). apply Z.land_0_l.
  - rewrite (Hnc s1 O1 H1). apply Z.land_0_l.
Qed.

(** C3, amended.  The constructors have no failure path: given
    two different signals wired to the same bit position in [0,7],
    construction still delivers the object, and the two signals get the
    same mask [1 << position]. *)
Theorem conflicting_pins_alias (i2cAddr : Z) (p : pins) (s1 s2 : signal) :
  s1 <> s2 -> pin_of p s1 = pin_of p s2 -> 0 <= pin_of p s1 <= 7 ->
  construct i2cAddr p = Some (init_pins i2cAddr p) /\
  mask_of (init_pins i2cAddr p) s1 = Z.shiftl 1 (pin_of p s1) /\
  mask_of (init_pins i2cAddr p) s2 = mask_of (init_pins i2cAddr p) s1.
Proof.
  intros _ Heq Hr. split; [reflexivity|].
  assert (Hm : forall s, 0 <= pin_of p s <= 7 ->
            mask_of (init_pins i2cAddr p) s = Z.shiftl 1 (pin_of p s)).
  { intros s Hs. rewrite mask_of_init.
    destruct (Z.eqb_spec (pin_of p s) 255) as [E|_]; [lia|].
    rewrite andb_false_r. apply bit_mask_low. assumption. }
  split; [apply Hm; assumption|].
  rewrite (Hm s1 Hr), (Hm s2) by (rewrite <- Heq; assumption).
  rewrite Heq. reflexivity.
Qed.

(** C3, counterexample: with rs and enable both wired to bit 2 the
    constructor reports no error, and both masks are 0x04. *)
Lemma conflicting_pins_accepted :
  conflicting (mkPins 2 255 2 4 5 6 7 3) /\
  construct 0x27 (mkPins 2 255 2 4 5 6 7 3) <> None /\
  new_pins 0x27 2 2 4 5 6 7 3 = init_pins 0x27 (mkPins 2 255 2 4 5 6 7 3) /\
  _rs_mask (new_pins 0x27 2 2 4 5 6 7 3) = 0x04 /\
  _enable_mask (new_pins 0x27 2 2 4 5 6 7 3) = 0x04.
Proof.
  split.
  - exists RS, EN. simpl. repeat split; [discriminate | lia | lia].
  - split; [discriminate|]. repeat split.
Qed.

(** ** Running the member functions *)

(** Unfold the monad and replace each low level call by its log. *)
Ltac run_calls :=
  repeat progress
    (cbv [bind modify get ret emit when undefined delayMicroseconds
          Wire_begin Wire_beginTransmission Wire_write Wire_endTransmission];
     rewrite ?_send_run, ?_sendNibble_run, ?_write2Wire_run).

Lemma frame_log_set_displaycontrol (x : Z) (s : LCD) (v : Z) (d : bool) :
  frame_log (set_displaycontrol x s) v d = frame_log s v d.
Proof. reflexivity. Qed.

Lemma frame_log_set_entrymode (x : Z) (s : LCD) (v : Z) (d : bool) :
  frame_log (set_entrymode x s) v d = frame_log s v d.
Proof. reflexivity. Qed.

Lemma transactions_frame_log (s : LCD) (v : Z) (d : bool) :
  transactions (frame_log s v d) = Some [spec_frame s v d].
Proof. reflexivity. Qed.

Lemma u8_small (x : Z) : is_u8 x -> u8 x = x.
Proof. unfold is_u8, u8. intros H. apply Z.mod_small. assumption. Qed.

Lemma u8_land_l (x y : Z) : is_u8 x -> u8 (Z.land x y) = Z.land x y.
Proof.
  intros Hx. unfold u8. change 256 with (2 ^ 8).
  rewrite <- Z.land_ones by lia.
  rewrite (Z.land_comm x y), <- Z.land_assoc, Z.land_ones by lia.
  change (2 ^ 8) with 256. fold (u8 x). rewrite u8_small by assumption.
  reflexivity.
Qed.

Lemma clear_run (s : LCD) :
  clear s = Some (tt, s, frame_log s 0x01 false ++ [DelayMicroseconds 1600]).
Proof. unfold clear. run_calls. reflexivity. Qed.

Lemma home_run (s : LCD) :
  home s = Some (tt, s, frame_log s 0x02 false ++ [DelayMicroseconds 1600]).
Proof. unfold home. run_calls. reflexivity. Qed.

Lemma setCursor_run (col row : Z) (s : LCD) :
  0 <= row <= 3 ->
  setCursor col row s =
  Some (tt, s, frame_log s (u8 (Z.lor 0x80 (nth (Z.to_nat row) row_offsets 0 + col))) false).
Proof.
  intros Hr. unfold setCursor.
  assert (H : row = 0 \/ row = 1 \/ row = 2 \/ row = 3) by lia.
  destruct H as [-> | [-> | [-> | ->]]]; simpl nth_error; simpl nth; apply _send_run.
Qed.

(** Past the end of [row_offsets] the call is undefined. *)
Lemma setCursor_out_of_range (col row : Z) (s : LCD) :
  4 <= row -> setCursor col row s = None.
Proof.
  intros Hr. unfold setCursor.
  assert (H : nth_error row_offsets (Z.to_nat row) = None).
  { apply nth_error_None. simpl. lia. }
  rewrite H. reflexivity.
Qed.

Lemma displaycontrol_set_run (bit : Z) (s : LCD) :
  displaycontrol_set bit s =
  Some (tt, set_displaycontrol (Z.lor (_displaycontrol s) bit) s,
        frame_log s (Z.lor 0x08 (Z.lor (_displaycontrol s) bit)) false).
Proof. unfold displaycontrol_set. run_calls. reflexivity. Qed.

Lemma displaycontrol_clear_run (bit : Z) (s : LCD) :
  displaycontrol_clear bit s =
  Some (tt, set_displaycontrol (u8 (Z.land (_displaycontrol s) (Z.lnot bit))) s,
        frame_log s (Z.lor 0x08 (u8 (Z.land (_displaycontrol s) (Z.lnot bit)))) false).
Proof. unfold displaycontrol_clear. run_calls. reflexivity. Qed.

Lemma entrymode_set_run (bit : Z) (s : LCD) :
  entrymode_set bit s =
  Some (tt, set_entrymode (Z.lor (_entrymode s) bit) s,
        frame_log s (Z.lor 0x04 (Z.lor (_entrymode s) bit)) false).
Proof. unfold entrymode_set. run_calls. reflexivity. Qed.

Lemma entrymode_clear_run (bit : Z) (s : LCD) :
  entrymode_clear bit s =
  Some (tt, set_entrymode (u8 (Z.land (_entrymode s) (Z.lnot bit))) s,
        frame_log s (Z.lor 0x04 (u8 (Z.land (_entrymode s) (Z.lnot bit)))) false).
Proof. unfold entrymode_clear. run_calls. reflexivity. Qed.

Lemma setBacklight_run (brightness : Z) (s : LCD) :
  setBacklight brightness s =
  Some (tt, set_backlight brightness s,
        [ BeginTransmission (_i2cAddr s);
          WireWrite (Z.lor (_rs_mask s)
                       (if 0 <? brightness then _backlight_mask s else 0));
          EndTransmission ]).
Proof. unfold setBacklight. run_calls. reflexivity. Qed.

Lemma write_run (ch : Z) (s : LCD) :
  write ch s = Some (1, s, frame_log s ch true).
Proof. unfold write. run_calls. rewrite app_nil_r. reflexivity. Qed.

Lemma begin_run (cols lines : Z) (s : LCD) :
  begin cols lines s =
  Some (tt, set_entrymode 0x02 (set_displaycontrol 0x04 (set_lines lines s)),
        begin_log s lines).
Proof.
  unfold begin, display, leftToRight, clear, displaycontrol_set, entrymode_set.
  run_calls. unfold begin_log. destruct (1 <? lines); reflexivity.
Qed.

(** ** The reset handshake *)

(** C2. [begin(cols, lines)] makes its calls in the order of [begin_log]:
    the settle write and 50 ms delay, nibble 0x03 three times with delays of
    4500, 200 and 200 microseconds, nibble 0x02, function set 0x20 (0x28
    when [lines > 1]) as a full frame, then display on 0x0C, clear 0x01 and
    entry mode 0x06.  The settle byte is not all-low: it carries the
    register-select mask (and the backlight mask when the light is on).  On
    a freshly constructed default object, [begin(16, 2)] writes 0x01 as its
    first byte. *)
Theorem begin_settle_byte_sets_rs :
  (forall cols lines s,
     log_of (begin cols lines s) = Some (begin_log s lines) /\
     exists rest,
       begin_log s lines =
       WireBegin :: BeginTransmission (_i2cAddr s)
         :: WireWrite (Z.lor (_rs_mask s)
                         (if 0 <? _backlight s then _backlight_mask s else 0))
         :: EndTransmission :: DelayMicroseconds 50000 :: rest) /\
  log_of (begin 16 2 (new_default 0x27)) =
    Some [ WireBegin;
           BeginTransmission 0x27; WireWrite 0x01; EndTransmission;
           DelayMicroseconds 50000;
           BeginTransmission 0x27; WireWrite 0x34; WireWrite 0x30; EndTransmission;
           DelayMicroseconds 4500;
           BeginTransmission 0x27; WireWrite 0x34; WireWrite 0x30; EndTransmission;
           DelayMicroseconds 200;
           BeginTransmission 0x27; WireWrite 0x34; WireWrite 0x30; EndTransmission;
           DelayMicroseconds 200;
           BeginTransmission 0x27; WireWrite 0x24; WireWrite 0x20; EndTransmission;
           BeginTransmission 0x27; WireWrite 0x24; WireWrite 0x20;
             WireWrite 0x84; WireWrite 0x80; EndTransmission;
           BeginTransmission 0x27; WireWrite 0x04; WireWrite 0x00;
             WireWrite 0xC4; WireWrite 0xC0; EndTransmission;
           BeginTransmission 0x27; WireWrite 0x04; WireWrite 0x00;
             WireWrite 0x14; WireWrite 0x10; EndTransmission;
           DelayMicroseconds 1600;
           BeginTransmission 0x27; WireWrite 0x04; WireWrite 0x00;
             WireWrite 0x64; WireWrite 0x60; EndTransmission ].
Proof.
  split.
  - intros cols lines s. rewrite begin_run. split; [reflexivity|].
    unfold begin_log. simpl app. eexists. reflexivity.
  - vm_compute. reflexivity.
Qed.

(** ** Cursor addressing *)

(** C5. For every column and every row in [0,3], [setCursor(col, row)]
    sends one command frame, register-select low, whose instruction byte is
    [0x80 | (row_offsets[row] + col)] as a [uint8_t], with the offsets
    {0x00, 0x40, 0x14, 0x54}; the conversion changes nothing while the sum
    stays below 256; [setCursor(2, 1)] sends 0xC2. *)
Theorem setCursor_sends_address (s : LCD) (col row : Z) :
  is_u8 col -> 0 <= row <= 3 ->
  row_offsets = [0x00; 0x40; 0x14; 0x54] /\
  setCursor col row s =
    _send (u8 (Z.lor 0x80 (nth (Z.to_nat row) row_offsets 0 + col))) false s /\
  (exists t,
     setCursor col row s = Some (tt, s, t) /\
     transactions t =
       Some [spec_frame s (u8 (Z.lor 0x80 (nth (Z.to_nat row) row_offsets 0 + col))) false]) /\
  (nth (Z.to_nat row) row_offsets 0 + col < 256 ->
     u8 (Z.lor 0x80 (nth (Z.to_nat row) row_offsets 0 + col)) =
     Z.lor 0x80 (nth (Z.to_nat row) row_offsets 0 + col)) /\
  setCursor 2 1 s = _send 0xC2 false s.
Proof.
  intros Hc Hr. split; [reflexivity|].
  split; [rewrite setCursor_run, _send_run by assumption; reflexivity|].
  split.
  { eexists. split; [apply setCursor_run; assumption|].
    apply transactions_frame_log. }
  split; [|reflexivity].
  intros Hlt. apply u8_small. apply lor_u8; [unfold is_u8; lia|].
  assert (H : row = 0 \/ row = 1 \/ row = 2 \/ row = 3) by lia.
  unfold is_u8 in *.
  destruct H as [-> | [-> | [-> | ->]]].
  - change (nth (Z.to_nat 0) row_offsets 0) with 0x00 in *. lia.
  - change (nth (Z.to_nat 1) row_offsets 0) with 0x40 in *. lia.
  - change (nth (Z.to_nat 2) row_offsets 0) with 0x14 in *. lia.
  - change (nth (Z.to_nat 3) row_offsets 0) with 0x54 in *. lia.
Qed.

(** ** Display control and entry mode *)

Lemma land_lnot_lor_same (x b : Z) :
  Z.land (Z.lor x b) (Z.lnot b) = Z.land x (Z.lnot b).
Proof.
  apply Z.bits_inj'. intros n Hn.
  rewrite !Z.land_spec, Z.lor_spec, Z.lnot_spec by assumption.
  destruct (Z.testbit x n), (Z.testbit b n); reflexivity.
Qed.

Lemma land_lnot_bit_clear (x k : Z) :
  0 <= k -> Z.testbit x k = false -> Z.land x (Z.lnot (2 ^ k)) = x.
Proof.
  intros Hk Hx. apply Z.bits_inj'. intros n Hn.
  rewrite Z.land_spec, Z.lnot_spec, Z.pow2_bits_eqb by assumption.
  destruct (Z.eqb_spec k n) as [->|_].
  - rewrite Hx. reflexivity.
  - apply andb_true_r.
Qed.

Lemma set_displaycontrol_same (s : LCD) : set_displaycontrol (_displaycontrol s) s = s.
Proof. destruct s; reflexivity. Qed.

(** C6, amended.  From every display-control state, [blink()]
    then [noBlink()] issues the two instructions [0x08 | (flags | 0x01)]
    and [0x08 | (flags & ~0x01)] and leaves the flags with the blink bit
    cleared; that is the starting value exactly when blink was off at the
    start.  The flag groups use the bit values display 0x04, cursor 0x02,
    blink 0x01 under instruction 0x08, and direction 0x02, autoscroll 0x01
    under instruction 0x04. *)
Theorem blink_then_noBlink (s : LCD) :
  is_u8 (_displaycontrol s) ->
  (blink ;; noBlink) s =
    Some (tt,
          set_displaycontrol (Z.land (_displaycontrol s) (Z.lnot 0x01)) s,
          frame_log s (Z.lor 0x08 (Z.lor (_displaycontrol s) 0x01)) false
          ++ frame_log s (Z.lor 0x08 (Z.land (_displaycontrol s) (Z.lnot 0x01))) false) /\
  (Z.testbit (_displaycontrol s) 0 = false ->
   state_of ((blink ;; noBlink) s) = Some s) /\
  display s = Some (tt, set_displaycontrol (Z.lor (_displaycontrol s) 0x04) s,
                    frame_log s (Z.lor 0x08 (Z.lor (_displaycontrol s) 0x04)) false) /\
  cursor s = Some (tt, set_displaycontrol (Z.lor (_displaycontrol s) 0x02) s,
                   frame_log s (Z.lor 0x08 (Z.lor (_displaycontrol s) 0x02)) false) /\
  blink s = Some (tt, set_displaycontrol (Z.lor (_displaycontrol s) 0x01) s,
                  frame_log s (Z.lor 0x08 (Z.lor (_displaycontrol s) 0x01)) false) /\
  leftToRight s = Some (tt, set_entrymode (Z.lor (_entrymode s) 0x02) s,
                        frame_log s (Z.lor 0x04 (Z.lor (_entrymode s) 0x02)) false) /\
  autoscroll s = Some (tt, set_entrymode (Z.lor (_entrymode s) 0x01) s,
                       frame_log s (Z.lor 0x04 (Z.lor (_entrymode s) 0x01)) false).
Proof.
  intros Hdc.
  assert (Hrun : (blink ;; noBlink) s =
    Some (tt,
          set_displaycontrol (Z.land (_displaycontrol s) (Z.lnot 0x01)) s,
          frame_log s (Z.lor 0x08 (Z.lor (_displaycontrol s) 0x01)) false
          ++ frame_log s (Z.lor 0x08 (Z.land (_displaycontrol s) (Z.lnot 0x01))) false)).
  { unfold blink, noBlink, bind at 1.
    rewrite displaycontrol_set_run, displaycontrol_clear_run.
    cbn [_displaycontrol set_displaycontrol].
    rewrite land_lnot_lor_same, u8_land_l by assumption.
    reflexivity. }
  split; [exact Hrun|]. split.
  { intros Hb. rewrite Hrun. cbn [state_of].
    change 0x01 with (2 ^ 0). rewrite land_lnot_bit_clear by (assumption || lia).
    rewrite set_displaycontrol_same. reflexivity. }
  unfold display, cursor, blink, leftToRight, autoscroll.
  rewrite !displaycontrol_set_run, !entrymode_set_run. repeat split.
Qed.

(** C6, counterexample.  On a default object [blink()] leaves the flags
    at 0x05; from that state [blink()] then [noBlink()] ends with the flags
    at 0x04, not back at 0x05. *)
Lemma blink_then_noBlink_drops_set_flag :
  state_of (blink (new_default 0x27)) =
    Some (set_displaycontrol 0x05 (new_default 0x27)) /\
  _displaycontrol (set_displaycontrol 0x05 (new_default 0x27)) = 0x05 /\
  option_map _displaycontrol
    (state_of ((blink ;; noBlink) (set_displaycontrol 0x05 (new_default 0x27)))) =
    Some 0x04 /\
  state_of ((blink ;; noBlink) (set_displaycontrol 0x05 (new_default 0x27))) <>
    Some (set_displaycontrol 0x05 (new_default 0x27)).
Proof.
  split; [vm_compute; reflexivity|]. split; [reflexivity|].
  split; [vm_compute; reflexivity|].
  vm_compute. intros H. discriminate H.
Qed.

(** ** Batched writes *)

Lemma wire_run_app (b : bus) (t1 t2 : list event) :
  wire_run b (t1 ++ t2) =
  match wire_run b t1 with
  | Some b' => wire_run b' t2
  | None => None
  end.
Proof.
  revert b. induction t1 as [|e t1 IH]; intros b; simpl.
  - reflexivity.
  - destruct (wire_step b e); [apply IH | reflexivity].
Qed.

Lemma wire_run_data_frame (done : list (list Z)) (l : list Z) (s : LCD) (out1 v : Z) :
  wire_run (done, Some l) (map WireWrite (data_frame s out1 v)) =
  Some (done, Some (l ++ data_frame s out1 v)).
Proof.
  unfold data_frame. simpl. rewrite <- !app_assoc. reflexivity.
Qed.

Lemma total_bytes_concat (txs : list (list Z)) :
  total_bytes txs = Z.of_nat (length (concat txs)).
Proof.
  induction txs as [|tx txs IH]; simpl.
  - reflexivity.
  - rewrite length_app, Nat2Z.inj_add, IH. reflexivity.
Qed.

Lemma flat_map_frames_length (f : Z -> list Z) (buffer : list Z) :
  (forall v, length (f v) = 4%nat) ->
  Z.of_nat (length (flat_map f buffer)) = 4 * Z.of_nat (length buffer).
Proof.
  intros Hf. induction buffer as [|v buffer IH]; simpl.
  - reflexivity.
  - rewrite length_app, Hf. lia.
Qed.

Lemma total_bytes_bound (bound : Z) (txs : list (list Z)) :
  Forall (fun tx => Z.of_nat (length tx) <= bound) txs ->
  total_bytes txs <= bound * Z.of_nat (length txs).
Proof.
  induction 1 as [|tx txs Htx _ IH]; simpl total_bytes.
  - simpl. lia.
  - rewrite length_cons, Nat2Z.inj_succ. lia.
Qed.

Lemma base_of_write (s : LCD) :
  (let out := _rs_mask s in
   let out := if 0 <? _backlight s then Z.lor out (_backlight_mask s) else out in
   out) = spec_base s true.
Proof.
  unfold spec_base. cbv zeta.
  destruct (0 <? _backlight s); [apply Z.lor_comm | rewrite Z.lor_0_l; reflexivity].
Qed.

Lemma mod4_next (c : Z) : c mod 4 = 0 -> (c + 4) mod 4 = 0.
Proof.
  intros Hc. replace (c + 4) with (c + 1 * 4) by lia.
  rewrite Z.mod_add by lia. exact Hc.
Qed.

(** The length at which a transmission is ended is determined: a multiple
    of 4 that has reached [bound - 4], while the count four bytes earlier,
    if there was one, had not. *)
Lemma chunk_bytes_first (bound len : Z) :
  4 <= bound -> len mod 4 = 0 -> 4 <= len -> bound - 4 <= len ->
  len = 4 \/ len < bound ->
  len = chunk_bytes bound.
Proof.
  intros Hb Hm Hl Hreach Hfirst. unfold chunk_bytes.
  pose proof (Z.div_mod len 4 ltac:(lia)) as Hd. rewrite Hm in Hd.
  pose proof (Z.div_mod (bound - 1) 4 ltac:(lia)) as Hq.
  pose proof (Z.mod_pos_bound (bound - 1) 4 ltac:(lia)) as Hr.
  lia.
Qed.

Lemma chunk_bytes_bounds (bound : Z) :
  4 <= bound ->
  bound - 4 <= chunk_bytes bound <= bound /\
  chunk_bytes bound mod 4 = 0 /\
  (chunk_bytes bound = 4 \/ chunk_bytes bound < bound).
Proof.
  intros Hb. unfold chunk_bytes.
  pose proof (Z.div_mod (bound - 1) 4 ltac:(lia)) as Hq.
  pose proof (Z.mod_pos_bound (bound - 1) 4 ltac:(lia)) as Hr.
  split; [lia|]. split; [|lia].
  destruct (Z.max_spec 4 (4 * ((bound - 1) / 4))) as [[_ ->] | [_ ->]].
  - rewrite Z.mul_comm. apply Z_mod_mult.
  - reflexivity.
Qed.

Section BatchingFacts.

Variable BUFFER_LENGTH : Z.

(** One turn of the loop. *)
Lemma write_loop_cons (v : Z) (buffer : list Z) (out1 c : Z) (s : LCD) :
  write_loop BUFFER_LENGTH (v :: buffer) out1 c s =
  match write_loop BUFFER_LENGTH buffer out1
          (if BUFFER_LENGTH - 4 <=? u8 (c + 4) then 0 else u8 (c + 4)) s with
  | Some (c', s', t) =>
      Some (c', s',
            (if c =? 0 then [BeginTransmission (_i2cAddr s)] else [])
            ++ map WireWrite (data_frame s out1 v)
            ++ (if BUFFER_LENGTH - 4 <=? u8 (c + 4) then [EndTransmission] else [])
            ++ t)
  | None => None
  end.
Proof.
  cbn [write_loop]. run_calls. rewrite or_data_high, or_data_low.
  destruct (c =? 0), (BUFFER_LENGTH - 4 <=? u8 (c + 4));
    run_calls;
    match goal with
    | |- context [write_loop ?b ?l ?o ?k ?st] =>
        destruct (write_loop b l o k st) as [[[c' s'] t]|]
    end; reflexivity.
Qed.

(** The loop always completes, leaves the object as it is and writes the
    frames of the bytes in order. *)
Lemma write_loop_total (buffer : list Z) (out1 c : Z) (s : LCD) :
  exists c' t,
    write_loop BUFFER_LENGTH buffer out1 c s = Some (c', s, t) /\
    written t = flat_map (data_frame s out1) buffer.
Proof.
  revert c. induction buffer as [|v buffer IH]; intros c.
  - exists c, []. split; reflexivity.
  - rewrite write_loop_cons.
    destruct (IH (if BUFFER_LENGTH - 4 <=? u8 (c + 4) then 0 else u8 (c + 4)))
      as (c' & t & -> & Hw).
    eexists _, _. split; [reflexivity|].
    cbn [flat_map]. rewrite <- Hw.
    destruct (c =? 0), (BUFFER_LENGTH - 4 <=? u8 (c + 4)); reflexivity.
Qed.

Lemma write_buf_total (buffer : list Z) (s : LCD) :
  exists t,
    write_buf BUFFER_LENGTH buffer s = Some (Z.of_nat (length buffer), s, t) /\
    written t = flat_map (fun v => spec_frame s v true) buffer.
Proof.
  unfold write_buf. run_calls.
  pose proof (base_of_write s) as Hb. cbv zeta in Hb. rewrite Hb. clear Hb.
  destruct (write_loop_total buffer (spec_base s true) 0 s) as (c' & t & -> & Hw).
  assert (Hend : forall e, written (t ++ e ++ []) = written t ++ written e).
  { intros e. unfold written. rewrite app_nil_r. apply flat_map_app. }
  destruct (nz c'); eexists; (split; [reflexivity|]);
    rewrite app_nil_l, Hend, Hw; cbn [written flat_map app];
    rewrite app_nil_r; reflexivity.
Qed.

Hypothesis BUFFER_LENGTH_range : 4 <= BUFFER_LENGTH <= 256.

(** The loop replayed on the bus: it ends full transmissions only, each
    within the bound, and keeps the bytes in order. *)
Lemma write_loop_bus (s : LCD) (out1 : Z) (buffer : list Z) :
  forall c done cur,
    loop_inv BUFFER_LENGTH c cur ->
    exists c' t done' cur',
      write_loop BUFFER_LENGTH buffer out1 c s = Some (c', s, t) /\
      wire_run (done, cur) t = Some (done ++ done', cur') /\
      loop_inv BUFFER_LENGTH c' cur' /\
      Forall (fun tx => BUFFER_LENGTH - 4 <= Z.of_nat (length tx) <= BUFFER_LENGTH /\
                        Z.of_nat (length tx) = chunk_bytes BUFFER_LENGTH) done' /\
      concat done' ++ open_bytes cur' =
        open_bytes cur ++ flat_map (data_frame s out1) buffer.
Proof.
  induction buffer as [|v buffer IH]; intros c done cur Hinv.
  - exists c, [], [], cur. simpl. rewrite !app_nil_r. auto.
  - rewrite write_loop_cons.
    assert (Hlen : length (data_frame s out1 v) = 4%nat) by reflexivity.
    assert (Hc4 : u8 (c + 4) = c + 4).
    { apply u8_small. unfold is_u8.
      destruct cur as [l|]; simpl in Hinv; lia. }
    rewrite Hc4.
    set (l := open_bytes cur).
    assert (Hl : Z.of_nat (length l) = c).
    { subst l. destruct cur as [l|]; simpl in *; lia. }
    assert (Hstart : wire_run (done, cur)
              ((if c =? 0 then [BeginTransmission (_i2cAddr s)] else [])
               ++ map WireWrite (data_frame s out1 v)) =
            Some (done, Some (l ++ data_frame s out1 v))).
    { rewrite wire_run_app. subst l. destruct cur as [l|]; simpl in Hinv.
      - destruct (Z.eqb_spec c 0); [lia|]. cbn [wire_run].
        apply wire_run_data_frame.
      - subst c. cbn [Z.eqb wire_run wire_step open_bytes].
        apply wire_run_data_frame. }
    destruct (Z.leb_spec (BUFFER_LENGTH - 4) (c + 4)) as [Hfull|Hroom].
    + destruct (IH 0 (done ++ [l ++ data_frame s out1 v]) None eq_refl)
        as (c' & t & done' & cur' & -> & Hrun & Hinv' & Hall & Hbytes).
      exists c', ((if c =? 0 then [BeginTransmission (_i2cAddr s)] else [])
                  ++ map WireWrite (data_frame s out1 v) ++ [EndTransmission] ++ t),
        ((l ++ data_frame s out1 v) :: done'), cur'.
      split; [reflexivity|]. split.
      { rewrite app_assoc, wire_run_app, Hstart. cbn [app wire_run wire_step].
        rewrite Hrun, <- app_assoc. reflexivity. }
      split; [assumption|]. split.
      { constructor; [|assumption]. rewrite length_app, Hlen, Nat2Z.inj_add.
        change (Z.of_nat 4) with 4. rewrite Hl.
        split; [destruct cur as [l0|]; simpl in Hinv; lia|].
        apply chunk_bytes_first; try lia.
        - destruct cur as [l0|]; simpl in Hinv; [|subst c; reflexivity].
          apply mod4_next. apply Hinv.
        - destruct cur as [l0|]; simpl in Hinv; lia. }
      cbn [concat]. rewrite <- !app_assoc, Hbytes. reflexivity.
    + assert (Hinv1 : loop_inv BUFFER_LENGTH (c + 4) (Some (l ++ data_frame s out1 v))).
      { simpl. rewrite length_app, Hlen, Nat2Z.inj_add.
        change (Z.of_nat 4) with 4. rewrite Hl.
        split; [destruct cur as [l0|]; simpl in Hinv; lia|].
        split; [reflexivity|].
        destruct cur as [l0|]; simpl in Hinv; [|subst c; reflexivity].
        apply mod4_next. apply Hinv. }
      destruct (IH (c + 4) done (Some (l ++ data_frame s out1 v)) Hinv1)
        as (c' & t & done' & cur' & -> & Hrun & Hinv' & Hall & Hbytes).
      exists c', ((if c =? 0 then [BeginTransmission (_i2cAddr s)] else [])
                  ++ map WireWrite (data_frame s out1 v) ++ [] ++ t),
        done', cur'.
      split; [reflexivity|]. split.
      { rewrite app_assoc, wire_run_app, Hstart. exact Hrun. }
      split; [assumption|]. split; [assumption|].
      rewrite Hbytes. cbn [open_bytes flat_map]. rewrite <- !app_assoc. reflexivity.
Qed.

End BatchingFacts.

Lemma write_buf_bus (BUFFER_LENGTH : Z) (s : LCD) (buffer : list Z) :
  4 <= BUFFER_LENGTH <= 256 ->
  exists t txs,
    write_buf BUFFER_LENGTH buffer s = Some (Z.of_nat (length buffer), s, t) /\
    transactions t = Some txs /\
    Forall (fun tx => Z.of_nat (length tx) <= BUFFER_LENGTH) txs /\
    Forall (fun tx => BUFFER_LENGTH - 4 <= Z.of_nat (length tx)) (removelast txs) /\
    concat txs = flat_map (fun v => spec_frame s v true) buffer /\
    Forall (fun tx => Z.of_nat (length tx) = chunk_bytes BUFFER_LENGTH) (removelast txs) /\
    Forall (fun tx => 4 <= Z.of_nat (length tx) <= chunk_bytes BUFFER_LENGTH) txs.
Proof.
  intros HB. pose proof (chunk_bytes_bounds BUFFER_LENGTH ltac:(lia)) as Hchunk.
  unfold write_buf. run_calls.
  pose proof (base_of_write s) as Hb. cbv zeta in Hb. rewrite Hb. clear Hb.
  destruct (write_loop_bus BUFFER_LENGTH HB s (spec_base s true) buffer 0 [] None eq_refl)
    as (c' & t & done' & cur' & -> & Hrun & Hinv & Hall & Hbytes).
  cbn [app open_bytes] in Hrun, Hbytes.
  assert (Hframes : flat_map (data_frame s (spec_base s true)) buffer =
                    flat_map (fun v => spec_frame s v true) buffer) by reflexivity.
  rewrite Hframes in Hbytes. clear Hframes.
  destruct cur' as [l|]; simpl in Hinv.
  - destruct Hinv as (Hc & Hl & Hm4).
    assert (Hc4 : 4 <= c').
    { pose proof (Z.div_mod c' 4 ltac:(lia)) as Hd. rewrite Hm4 in Hd. lia. }
    assert (Hnz : nz c' = true).
    { unfold nz. destruct (Z.eqb_spec c' 0); [lia | reflexivity]. }
    rewrite Hnz. exists (t ++ [EndTransmission]), (done' ++ [l]).
    split; [reflexivity|]. split.
    { unfold transactions. rewrite wire_run_app, Hrun. reflexivity. }
    split.
    { apply Forall_app. split.
      - eapply Forall_impl; [|exact Hall]. simpl. intros tx Htx. lia.
      - constructor; [lia | constructor]. }
    split.
    { rewrite removelast_last. eapply Forall_impl; [|exact Hall].
      simpl. intros tx Htx. lia. }
    split.
    { rewrite concat_app. cbn [concat open_bytes] in *. rewrite app_nil_r.
      exact Hbytes. }
    split.
    { rewrite removelast_last. eapply Forall_impl; [|exact Hall].
      simpl. intros tx Htx. apply Htx. }
    apply Forall_app. split.
    + eapply Forall_impl; [|exact Hall]. simpl. intros tx [_ E]. rewrite E.
      unfold chunk_bytes. lia.
    + constructor; [lia | constructor].
  - subst c'. cbn [nz Z.eqb negb]. exists t, done'.
    split; [rewrite app_nil_r; reflexivity|]. split.
    { unfold transactions. rewrite Hrun. reflexivity. }
    split.
    { eapply Forall_impl; [|exact Hall]. simpl. intros tx Htx. lia. }
    assert (Hsub : forall tx, In tx (removelast done') -> In tx done').
    { intros tx Hin. destruct done' as [|d0 done0] using rev_ind.
      - exact Hin.
      - rewrite removelast_last in Hin. apply in_or_app. left. exact Hin. }
    split.
    { apply Forall_forall. intros tx Hin. apply Hsub in Hin.
      rewrite Forall_forall in Hall. apply Hall in Hin. lia. }
    split.
    { cbn [open_bytes] in Hbytes. rewrite app_nil_r in Hbytes. exact Hbytes. }
    split.
    { apply Forall_forall. intros tx Hin. apply Hsub in Hin.
      rewrite Forall_forall in Hall. apply Hall in Hin. apply Hin. }
    eapply Forall_impl; [|exact Hall]. simpl. intros tx [_ E]. rewrite E.
    unfold chunk_bytes. lia.
Qed.

(** C4. With a frame bound between 4 and 256, for every buffer with
    [4 * size] above the bound, [write(buffer, size)] returns [size],
    leaves the object as it is and puts the encoded frames of the bytes, in
    order and four per byte, into more than one bus transaction; every
    transaction is ended and none holds more than the bound.  A
    transmission is ended exactly when the count first reaches
    [bound - 4]: every transaction before the last holds [chunk_bytes
    bound] bytes, the first multiple of 4 (from 4 on) that is at least
    [bound - 4], and the last holds between 4 and that many. *)
Theorem write_buf_batches (BUFFER_LENGTH : Z) (s : LCD) (buffer : list Z) :
  4 <= BUFFER_LENGTH <= 256 ->
  BUFFER_LENGTH < 4 * Z.of_nat (length buffer) ->
  exists t txs,
    write_buf BUFFER_LENGTH buffer s = Some (Z.of_nat (length buffer), s, t) /\
    transactions t = Some txs /\
    (1 < length txs)%nat /\
    Forall (fun tx => Z.of_nat (length tx) <= BUFFER_LENGTH) txs /\
    Forall (fun tx => BUFFER_LENGTH - 4 <= Z.of_nat (length tx)) (removelast txs) /\
    concat txs = flat_map (fun v => spec_frame s v true) buffer /\
    total_bytes txs = 4 * Z.of_nat (length buffer) /\
    Forall (fun tx => Z.of_nat (length tx) = chunk_bytes BUFFER_LENGTH) (removelast txs) /\
    Forall (fun tx => 4 <= Z.of_nat (length tx) <= chunk_bytes BUFFER_LENGTH) txs /\
    BUFFER_LENGTH - 4 <= chunk_bytes BUFFER_LENGTH <= BUFFER_LENGTH /\
    chunk_bytes BUFFER_LENGTH mod 4 = 0 /\
    (chunk_bytes BUFFER_LENGTH = 4 \/ chunk_bytes BUFFER_LENGTH - 4 < BUFFER_LENGTH - 4).
Proof.
  intros HB Hlong.
  destruct (write_buf_bus BUFFER_LENGTH s buffer HB)
    as (t & txs & Hrun & Htx & Hmax & Hmin & Hbytes & Hexact & Hlast).
  destruct (chunk_bytes_bounds BUFFER_LENGTH ltac:(lia)) as (Hcb & Hcm & Hcf).
  assert (Htotal : total_bytes txs = 4 * Z.of_nat (length buffer)).
  { rewrite total_bytes_concat, Hbytes.
    apply flat_map_frames_length. reflexivity. }
  exists t, txs. repeat (split; [assumption|]).
  split.
  { pose proof (total_bytes_bound BUFFER_LENGTH txs Hmax) as Hsum.
    destruct txs as [|tx0 [|tx1 txs]]; simpl length in *; try lia. }
  repeat (split; [assumption|]). lia.
Qed.

(** ** Glyph programming *)

Lemma createChar_run (location : Z) (charmap : list Z) (s : LCD) :
  (8 <= length charmap)%nat ->
  exists t,
    createChar location charmap s = Some (tt, s, t) /\
    written t =
      spec_frame s (Z.lor 0x40 (Z.shiftl (Z.land location 0x7) 3)) false
      ++ flat_map (fun v => spec_frame s v true) (firstn 8 charmap).
Proof.
  intros Hlen.
  do 8 (destruct charmap as [|? charmap]; [simpl in Hlen; lia|]).
  unfold createChar, write. cbn [forM_ seq nth_error]. run_calls.
  eexists. split; reflexivity.
Qed.

Lemma createCharPgm_run (location : Z) (charmap : list Z) (s : LCD) :
  (8 <= length charmap)%nat ->
  exists t,
    createCharPgm location charmap s = Some (tt, s, t) /\
    written t =
      spec_frame s (Z.lor 0x40 (Z.shiftl (Z.land location 0x7) 3)) false
      ++ flat_map (fun v => spec_frame s v true) (firstn 8 charmap).
Proof. exact (createChar_run location charmap s). Qed.

(** ** Calls that only send *)

(** C10. [clear], [home], [setCursor], [scrollDisplayLeft],
    [scrollDisplayRight], [createChar] and [write] (one byte or a buffer),
    called with their array reads in bounds, complete and leave the object
    exactly as it was: entry-mode flags, display-control flags, backlight
    level and every other member keep their values. *)
Theorem sends_only_keeps_state (BUFFER_LENGTH : Z) (o : op) (s : LCD) :
  sends_only o = true -> in_bounds o ->
  exists t,
    run BUFFER_LENGTH o s = Some (tt, s, t) /\
    (forall s', state_of (run BUFFER_LENGTH o s) = Some s' ->
       _entrymode s' = _entrymode s /\
       _displaycontrol s' = _displaycontrol s /\
       _backlight s' = _backlight s).
Proof.
  intros Hso Hin.
  assert (Hrun : exists t, run BUFFER_LENGTH o s = Some (tt, s, t)).
  { destruct o; try discriminate Hso; cbn [run in_bounds] in *.
    - rewrite clear_run. eexists. reflexivity.
    - rewrite home_run. eexists. reflexivity.
    - rewrite setCursor_run by assumption. eexists. reflexivity.
    - unfold scrollDisplayLeft. rewrite _send_run. eexists. reflexivity.
    - unfold scrollDisplayRight. rewrite _send_run. eexists. reflexivity.
    - destruct (createChar_run location charmap s Hin) as (t & -> & _).
      eexists. reflexivity.
    - destruct (createCharPgm_run location charmap s Hin) as (t & -> & _).
      eexists. reflexivity.
    - unfold bind. rewrite write_run. eexists. reflexivity.
    - unfold bind.
      destruct (write_buf_total BUFFER_LENGTH buffer s) as (t & -> & _).
      eexists. reflexivity. }
  destruct Hrun as (t & Hrun). exists t. split; [exact Hrun|].
  intros s' Hs'. rewrite Hrun in Hs'. cbn [state_of] in Hs'.
  injection Hs' as <-. repeat split.
Qed.

(** ** Invariants of every call sequence *)

Lemma written_app (t1 t2 : list event) : written (t1 ++ t2) = written t1 ++ written t2.
Proof. apply flat_map_app. Qed.

Lemma sends_ret (I : LCD -> Prop) (B : Z -> Prop) {A} (Q : A -> Prop) (a : A) :
  Q a -> sends I B Q (ret a).
Proof.
  intros Ha s Hs. exists a, s, []. repeat split; auto.
Qed.

Lemma sends_bind (I : LCD -> Prop) (B : Z -> Prop) {A C}
      (Q : A -> Prop) (Q' : C -> Prop) (m : M A) (f : A -> M C) :
  sends I B Q m -> (forall a, Q a -> sends I B Q' (f a)) ->
  sends I B Q' (bind m f).
Proof.
  intros Hm Hf s Hs.
  destruct (Hm s Hs) as (a & s1 & t1 & E1 & I1 & Qa & B1).
  destruct (Hf a Qa s1 I1) as (b & s2 & t2 & E2 & I2 & Qb & B2).
  exists b, s2, (t1 ++ t2). unfold bind. rewrite E1, E2.
  repeat split; auto. rewrite written_app. apply Forall_app. auto.
Qed.

Lemma sends_forM_ (I : LCD -> Prop) (B : Z -> Prop) {A}
      (P : A -> Prop) (l : list A) (body : A -> M unit) :
  (forall x, P x -> sends I B (fun _ => True) (body x)) ->
  Forall P l -> sends I B (fun _ => True) (forM_ l body).
Proof.
  intros Hbody. induction 1 as [|x l Hx _ IH]; cbn [forM_].
  - apply sends_ret. exact Logic.I.
  - eapply sends_bind; [apply Hbody; exact Hx | intros _ _; exact IH].
Qed.

Section Invariant.

Variable I : LCD -> Prop.
Variable B : Z -> Prop.

Hypothesis B_zero : B 0.
Hypothesis B_lor : forall a b, B a -> B b -> B (Z.lor a b).
Hypothesis I_masks : forall s, I s ->
  B (_rs_mask s) /\ B (_enable_mask s) /\ B (_backlight_mask s) /\
  forall i, B (data_mask s i).
Hypothesis I_set_backlight : forall v s, I s -> I (set_backlight v s).
Hypothesis I_set_lines : forall v s, I s -> I (set_lines v s).
Hypothesis I_set_entrymode : forall v s, I s -> I (set_entrymode v s).
Hypothesis I_set_displaycontrol : forall v s, I s -> I (set_displaycontrol v s).

Lemma B_base (s : LCD) (d : bool) : I s -> B (spec_base s d).
Proof.
  intros Hs. destruct (I_masks s Hs) as (Hrs & _ & Hbl & _).
  unfold spec_base. apply B_lor.
  - destruct (0 <? _backlight s); assumption.
  - destruct d; assumption.
Qed.

Lemma B_nibble (s : LCD) (v first base : Z) :
  I s -> B base -> B (spec_nibble s v first base).
Proof.
  intros Hs Hb. destruct (I_masks s Hs) as (_ & _ & _ & Hd).
  unfold spec_nibble. simpl fold_left.
  repeat match goal with
  | |- context [if ?c then _ else _] => destruct c
  end; repeat apply B_lor; auto.
Qed.

Lemma B_frame (s : LCD) (v : Z) (d : bool) : I s -> Forall B (spec_frame s v d).
Proof.
  intros Hs. destruct (I_masks s Hs) as (_ & Hen & _).
  unfold spec_frame, spec_high, spec_low.
  repeat (apply Forall_cons; [auto using B_nibble, B_base|]). apply Forall_nil.
Qed.

Lemma B_frame_log (s : LCD) (v : Z) (d : bool) :
  I s -> Forall B (written (frame_log s v d)).
Proof. intros Hs. exact (B_frame s v d Hs). Qed.

Lemma B_nibble_log (s : LCD) (v : Z) (d : bool) :
  I s -> Forall B (written (nibble_log s v d)).
Proof.
  intros Hs. destruct (I_masks s Hs) as (_ & Hen & _).
  unfold nibble_log, spec_low. cbn [written flat_map app].
  repeat (apply Forall_cons; [auto using B_nibble, B_base|]). apply Forall_nil.
Qed.

Lemma B_settle (s : LCD) (on : bool) :
  I s -> B (Z.lor (_rs_mask s) (if on then _backlight_mask s else 0)).
Proof.
  intros Hs. destruct (I_masks s Hs) as (Hrs & _ & Hbl & _).
  apply B_lor; [assumption|]. destruct on; assumption.
Qed.

Lemma B_frames (s : LCD) (d : bool) (l : list Z) :
  I s -> Forall B (flat_map (fun v => spec_frame s v d) l).
Proof.
  intros Hs. induction l as [|v l IH]; cbn [flat_map].
  - constructor.
  - apply Forall_app. split; [apply B_frame; assumption | exact IH].
Qed.

(** Close a goal [Forall B (written log)] for a log built from frames. *)
Ltac bytes_ok :=
  repeat first
    [ apply Forall_nil
    | apply B_frame_log; assumption
    | apply B_nibble_log; assumption
    | apply B_frame; assumption
    | apply B_frames; assumption
    | rewrite written_app; apply Forall_app; split
    | apply Forall_app; split
    | progress cbn [written flat_map app]
    | apply Forall_cons; [apply B_settle; assumption|] ].

(** The outcome of a call, once its log is known. *)
Ltac sent :=
  eexists _, _, _; split; [reflexivity|]; split; [auto|];
  split; [exact Logic.I|]; bytes_ok.

Lemma sends_run (BUFFER_LENGTH : Z) (o : op) :
  in_bounds o -> sends I B (fun _ => True) (run BUFFER_LENGTH o).
Proof.
  intros Hin s Hs.
  destruct o; cbn [run in_bounds] in *;
    unfold noDisplay, display, cursor, noCursor, blink, noBlink,
      leftToRight, rightToLeft, autoscroll, noAutoscroll,
      scrollDisplayLeft, scrollDisplayRight, command.
  - rewrite begin_run. unfold begin_log. sent.
  - rewrite clear_run. sent.
  - rewrite home_run. sent.
  - rewrite setCursor_run by assumption. sent.
  - rewrite displaycontrol_clear_run. sent.
  - rewrite displaycontrol_set_run. sent.
  - rewrite displaycontrol_set_run. sent.
  - rewrite displaycontrol_clear_run. sent.
  - rewrite displaycontrol_set_run. sent.
  - rewrite displaycontrol_clear_run. sent.
  - rewrite _send_run. sent.
  - rewrite _send_run. sent.
  - rewrite entrymode_set_run. sent.
  - rewrite entrymode_clear_run. sent.
  - rewrite entrymode_set_run. sent.
  - rewrite entrymode_clear_run. sent.
  - rewrite setBacklight_run. sent.
  - destruct (createChar_run location charmap s Hin) as (t & -> & Hw).
    eexists _, _, _. split; [reflexivity|]. split; [assumption|].
    split; [exact Logic.I|]. rewrite Hw. bytes_ok.
  - destruct (createCharPgm_run location charmap s Hin) as (t & -> & Hw).
    eexists _, _, _. split; [reflexivity|]. split; [assumption|].
    split; [exact Logic.I|]. rewrite Hw. bytes_ok.
  - rewrite _send_run. sent.
  - unfold bind. rewrite write_run. cbn [ret]. sent.
  - unfold bind.
    destruct (write_buf_total BUFFER_LENGTH buffer s) as (t & -> & Hw).
    cbn [ret]. eexists _, _, _. split; [reflexivity|]. split; [assumption|].
    split; [exact Logic.I|]. rewrite written_app, Hw. bytes_ok.
Qed.

Lemma sends_run_all (BUFFER_LENGTH : Z) (os : list op) :
  Forall in_bounds os -> sends I B (fun _ => True) (run_all BUFFER_LENGTH os).
Proof.
  intros Hos. unfold run_all.
  apply sends_forM_ with (P := in_bounds); [|exact Hos].
  intros o Ho. apply sends_run. exact Ho.
Qed.

End Invariant.

(** ** The read/write line *)

Lemma bit_mask_cases (x : Z) :
  bit_mask x = 0 \/ (0 <= x <= 7 /\ bit_mask x = Z.shiftl 1 x).
Proof.
  destruct (Z.lt_ge_cases x 0) as [Hneg|Hpos].
  - left. unfold bit_mask. rewrite Z.shiftl_1_l, Z.pow_neg_r by assumption.
    reflexivity.
  - destruct (Z.le_gt_cases x 7) as [Hlow|Hhigh].
    + right. split; [lia | apply bit_mask_low; lia].
    + left. unfold bit_mask, u8. rewrite Z.shiftl_1_l.
      replace x with (8 + (x - 8)) by lia.
      rewrite Z.pow_add_r by lia. change (2 ^ 8) with 256.
      rewrite Z.mul_comm. apply Z_mod_mult.
Qed.

Lemma bit_mask_disjoint (x y : Z) :
  x <> y -> Z.land (bit_mask x) (bit_mask y) = 0.
Proof.
  intros Hne.
  destruct (bit_mask_cases x) as [->|[Hx ->]]; [apply Z.land_0_l|].
  destruct (bit_mask_cases y) as [->|[Hy ->]]; [apply Z.land_0_r|].
  apply shiftl1_disjoint; lia.
Qed.

Lemma init_rw_disjoint (i2cAddr : Z) (p : pins) (sig : signal) :
  rw_apart p -> sig <> RW ->
  Z.land (mask_of (init_pins i2cAddr p) sig) (_rw_mask (init_pins i2cAddr p)) = 0.
Proof.
  intros Hp Hsig. change (_rw_mask (init_pins i2cAddr p))
    with (mask_of (init_pins i2cAddr p) RW).
  rewrite !mask_of_init. cbn [optional pin_of andb].
  destruct Hp as [Hnc|Hp].
  - rewrite Hnc. apply Z.land_0_r.
  - destruct (pin_rw p =? 255); [apply Z.land_0_r|].
    destruct (optional sig && (pin_of p sig =? 255)); [apply Z.land_0_l|].
    apply bit_mask_disjoint. apply Hp. assumption.
Qed.

Lemma same_masks_rw_clear (i2cAddr : Z) (p : pins) (s : LCD) :
  rw_apart p -> same_masks (init_pins i2cAddr p) s ->
  rw_clear (init_pins i2cAddr p) (_rs_mask s) /\
  rw_clear (init_pins i2cAddr p) (_enable_mask s) /\
  rw_clear (init_pins i2cAddr p) (_backlight_mask s) /\
  forall i, rw_clear (init_pins i2cAddr p) (data_mask s i).
Proof.
  intros Hp (Hrs & _ & Hen & Hbl & Hdm). unfold rw_clear, data_mask.
  rewrite Hrs, Hen, Hbl, Hdm.
  split; [exact (init_rw_disjoint i2cAddr p RS Hp ltac:(discriminate))|].
  split; [exact (init_rw_disjoint i2cAddr p EN Hp ltac:(discriminate))|].
  split; [exact (init_rw_disjoint i2cAddr p BL Hp ltac:(discriminate))|].
  intros i.
  destruct i as [|[|[|[|i]]]].
  - exact (init_rw_disjoint i2cAddr p D4 Hp ltac:(discriminate)).
  - exact (init_rw_disjoint i2cAddr p D5 Hp ltac:(discriminate)).
  - exact (init_rw_disjoint i2cAddr p D6 Hp ltac:(discriminate)).
  - exact (init_rw_disjoint i2cAddr p D7 Hp ltac:(discriminate)).
  - cbn [init_pins init _data_mask nth]. destruct i; apply Z.land_0_l.
Qed.

Lemma rw_clear_lor (s0 : LCD) (a b : Z) :
  rw_clear s0 a -> rw_clear s0 b -> rw_clear s0 (Z.lor a b).
Proof.
  unfold rw_clear. intros Ha Hb. rewrite Z.land_lor_distr_l, Ha, Hb. reflexivity.
Qed.

(** C9. When the read/write pin is not connected or no other signal
    shares its position, every call sequence with its array reads in
    bounds, started on the constructed object, completes, keeps the masks,
    and every byte it hands to [Wire.write] has the read/write bit clear;
    so has every byte a further [_send], [_sendNibble] or [_write2Wire]
    would write. *)
Theorem rw_never_asserted (BUFFER_LENGTH i2cAddr : Z) (p : pins) (os : list op) :
  rw_apart p -> Forall in_bounds os ->
  exists s' t,
    run_all BUFFER_LENGTH os (init_pins i2cAddr p) = Some (tt, s', t) /\
    _rw_mask s' = _rw_mask (init_pins i2cAddr p) /\
    Forall (rw_clear s') (written t) /\
    (forall v d t', log_of (_send v d s') = Some t' ->
       Forall (rw_clear s') (written t')) /\
    (forall v d t', log_of (_sendNibble v d s') = Some t' ->
       Forall (rw_clear s') (written t')) /\
    (forall v t', log_of (_write2Wire v s') = Some t' ->
       Forall (rw_clear s') (written t')).
Proof.
  intros Hp Hos.
  set (s0 := init_pins i2cAddr p).
  assert (HB0 : rw_clear s0 0) by apply Z.land_0_l.
  assert (HI : forall s, same_masks s0 s ->
            rw_clear s0 (_rs_mask s) /\ rw_clear s0 (_enable_mask s) /\
            rw_clear s0 (_backlight_mask s) /\
            forall i, rw_clear s0 (data_mask s i))
    by (intros s Hs; apply same_masks_rw_clear; assumption).
  assert (H0 : same_masks s0 s0) by (repeat split).
  destruct (sends_run_all (same_masks s0) (rw_clear s0) HB0 (rw_clear_lor s0) HI
              (fun v s H => H) (fun v s H => H) (fun v s H => H) (fun v s H => H)
              BUFFER_LENGTH os Hos s0 H0)
    as ([] & s' & t & Hrun & Hs' & _ & Hbytes).
  assert (Hrw : rw_clear s' = rw_clear s0).
  { unfold rw_clear. destruct Hs' as (_ & -> & _). reflexivity. }
  exists s', t. split; [exact Hrun|].
  split; [apply Hs'|]. rewrite Hrw. split; [exact Hbytes|].
  split; [|split].
  - intros v d t'. rewrite _send_run. intros [= <-].
    apply (B_frame_log (same_masks s0) (rw_clear s0) HB0 (rw_clear_lor s0) HI).
    exact Hs'.
  - intros v d t'. rewrite _sendNibble_run. intros [= <-].
    apply (B_nibble_log (same_masks s0) (rw_clear s0) HB0 (rw_clear_lor s0) HI).
    exact Hs'.
  - intros v t'. rewrite _write2Wire_run. intros [= <-].
    cbn [written flat_map app]. constructor; [|constructor].
    apply (B_settle (same_masks s0) (rw_clear s0) HB0 (rw_clear_lor s0) HI).
    exact Hs'.
Qed.

(** ** The backlight level on the wire *)

(** Name the fields of two objects related by [same_light]: they share
    every field but the level, and the levels are both on or both off. *)
Ltac light_fields H :=
  match type of H with
  | same_light ?s1 ?s2 =>
      destruct s1, s2; destruct H as [H ?];
      unfold set_backlight in H; cbn in H; injection H as -> -> -> -> -> -> -> -> ->;
      cbn [_backlight] in *
  end.

Lemma frame_log_light (s1 s2 : LCD) (v : Z) (d : bool) :
  same_light s1 s2 -> frame_log s1 v d = frame_log s2 v d.
Proof.
  intros H. light_fields H.
  unfold frame_log, spec_frame, spec_high, spec_low, spec_base.
  cbn [_backlight _backlight_mask _rs_mask _i2cAddr _enable_mask].
  match goal with Hon : (0 <? _) = (0 <? _) |- _ => rewrite Hon end.
  reflexivity.
Qed.

Lemma nibble_log_light (s1 s2 : LCD) (v : Z) (d : bool) :
  same_light s1 s2 -> nibble_log s1 v d = nibble_log s2 v d.
Proof.
  intros H. light_fields H.
  unfold nibble_log, spec_low, spec_base.
  cbn [_backlight _backlight_mask _rs_mask _i2cAddr _enable_mask].
  match goal with Hon : (0 <? _) = (0 <? _) |- _ => rewrite Hon end.
  reflexivity.
Qed.

Lemma light_rel_log {A} (r1 r2 : option (A * LCD * list event)) :
  light_rel r1 r2 -> log_of r1 = log_of r2.
Proof.
  destruct r1 as [[[a1 s1] t1]|], r2 as [[[a2 s2] t2]|]; simpl;
    try contradiction; try reflexivity.
  intros (_ & _ & ->). reflexivity.
Qed.

Lemma lightM_ret {A} (a : A) : lightM (ret a).
Proof. intros s1 s2 H. simpl. auto. Qed.

Lemma lightM_undefined {A} : lightM (@undefined A).
Proof. intros s1 s2 H. exact Logic.I. Qed.

Lemma lightM_emit (e : event) : lightM (emit e).
Proof. intros s1 s2 H. simpl. auto. Qed.

Lemma lightM_bind {A C} (m : M A) (f : A -> M C) :
  lightM m -> (forall a, lightM (f a)) -> lightM (bind m f).
Proof.
  intros Hm Hf s1 s2 H. unfold bind.
  specialize (Hm s1 s2 H).
  destruct (m s1) as [[[a1 s1'] t1]|], (m s2) as [[[a2 s2'] t2]|];
    simpl in Hm; try contradiction; [|exact Logic.I].
  destruct Hm as (<- & Hs & <-).
  specialize (Hf a1 s1' s2' Hs).
  destruct (f a1 s1') as [[[c1 s1''] u1]|], (f a1 s2') as [[[c2 s2''] u2]|];
    simpl in Hf; try contradiction; [|exact Logic.I].
  destruct Hf as (<- & Hs' & <-). simpl. auto.
Qed.

Lemma lightM_forM_ {A} (l : list A) (body : A -> M unit) :
  (forall x, lightM (body x)) -> lightM (forM_ l body).
Proof.
  intros Hbody. induction l as [|x l IH]; cbn [forM_].
  - apply lightM_ret.
  - apply lightM_bind; [apply Hbody | intros _; exact IH].
Qed.

Lemma lightM_send (v : Z) (d : bool) : lightM (_send v d).
Proof.
  intros s1 s2 H. rewrite !_send_run. simpl.
  auto using frame_log_light.
Qed.

Lemma lightM_sendNibble (v : Z) (d : bool) : lightM (_sendNibble v d).
Proof.
  intros s1 s2 H. rewrite !_sendNibble_run. simpl.
  auto using nibble_log_light.
Qed.

Lemma lightM_write2Wire (byte : Z) : lightM (_write2Wire byte).
Proof.
  intros s1 s2 H. rewrite !_write2Wire_run. simpl.
  split; [reflexivity|]. split; [assumption|].
  light_fields H. cbn [_i2cAddr _rs_mask _backlight_mask].
  match goal with Hon : (0 <? _) = (0 <? _) |- _ => rewrite Hon end.
  reflexivity.
Qed.

Lemma lightM_modify (f : LCD -> LCD) :
  (forall s1 s2, same_light s1 s2 -> same_light (f s1) (f s2)) ->
  lightM (modify f).
Proof. intros Hf s1 s2 H. simpl. auto. Qed.

Lemma lightM_displaycontrol (g : Z -> Z) :
  lightM (modify (fun s => set_displaycontrol (g (_displaycontrol s)) s) ;;
          this <- get ;; _send (Z.lor 0x08 (_displaycontrol this)) false).
Proof.
  intros s1 s2 H. run_calls. simpl.
  split; [reflexivity|]. split.
  - light_fields H. split; [reflexivity | assumption].
  - rewrite !frame_log_set_displaycontrol.
    rewrite (frame_log_light s1 s2) by assumption.
    light_fields H. reflexivity.
Qed.

Lemma lightM_entrymode (g : Z -> Z) :
  lightM (modify (fun s => set_entrymode (g (_entrymode s)) s) ;;
          this <- get ;; _send (Z.lor 0x04 (_entrymode this)) false).
Proof.
  intros s1 s2 H. run_calls. simpl.
  split; [reflexivity|]. split.
  - light_fields H. split; [reflexivity | assumption].
  - rewrite !frame_log_set_entrymode.
    rewrite (frame_log_light s1 s2) by assumption.
    light_fields H. reflexivity.
Qed.

Lemma lightM_write (ch : Z) : lightM (write ch).
Proof.
  unfold write. apply lightM_bind; [apply lightM_send | intros _; apply lightM_ret].
Qed.

Lemma lightM_createChar (location : Z) (charmap : list Z) :
  lightM (createChar location charmap).
Proof.
  unfold createChar. apply lightM_bind; [apply lightM_send|].
  intros _. apply lightM_forM_. intros i.
  destruct (nth_error charmap i); [|apply lightM_undefined].
  apply lightM_bind; [apply lightM_write | intros _; apply lightM_ret].
Qed.

Lemma lightM_write_loop (BUFFER_LENGTH : Z) (buffer : list Z) (out1 : Z) :
  forall c, lightM (write_loop BUFFER_LENGTH buffer out1 c).
Proof.
  induction buffer as [|v buffer IH]; intros c s1 s2 H.
  - simpl. auto.
  - rewrite !write_loop_cons.
    specialize (IH (if BUFFER_LENGTH - 4 <=? u8 (c + 4) then 0 else u8 (c + 4)) s1 s2 H).
    destruct (write_loop BUFFER_LENGTH buffer out1 _ s1) as [[[c1 s1'] t1]|],
             (write_loop BUFFER_LENGTH buffer out1 _ s2) as [[[c2 s2'] t2]|];
      simpl in IH; try contradiction; [|exact Logic.I].
    destruct IH as (<- & Hs & <-). simpl.
    split; [reflexivity|]. split; [assumption|].
    light_fields H. reflexivity.
Qed.

Lemma write_buf_unfold (BUFFER_LENGTH : Z) (buffer : list Z) (s : LCD) :
  write_buf BUFFER_LENGTH buffer s =
  (c <- write_loop BUFFER_LENGTH buffer (spec_base s true) 0 ;;
   when (nz c) Wire_endTransmission ;;
   ret (Z.of_nat (length buffer))) s.
Proof.
  unfold write_buf, bind, get.
  pose proof (base_of_write s) as Hb. cbv zeta in Hb. cbv zeta. rewrite Hb.
  destruct (write_loop BUFFER_LENGTH buffer (spec_base s true) 0 s)
    as [[[c s'] t]|]; [|reflexivity].
  destruct (nz c); reflexivity.
Qed.

Lemma lightM_write_buf (BUFFER_LENGTH : Z) (buffer : list Z) :
  lightM (write_buf BUFFER_LENGTH buffer).
Proof.
  intros s1 s2 H. rewrite !write_buf_unfold.
  assert (Hb : spec_base s1 true = spec_base s2 true).
  { pose proof H as H'. light_fields H'. unfold spec_base.
    cbn [_backlight _backlight_mask _rs_mask].
    match goal with Hon : (0 <? _) = (0 <? _) |- _ => rewrite Hon end.
    reflexivity. }
  rewrite Hb. revert s1 s2 H Hb. intros s1 s2 H _. revert s1 H.
  generalize (spec_base s2 true). intros out1 s1 H.
  apply (lightM_bind (write_loop BUFFER_LENGTH buffer out1 0)); [| |exact H].
  - apply lightM_write_loop.
  - intros c. apply lightM_bind; [|intros _; apply lightM_ret].
    unfold when. destruct (nz c); [apply lightM_emit | apply lightM_ret].
Qed.

Lemma lightM_displaycontrol_set (bit : Z) : lightM (displaycontrol_set bit).
Proof. exact (lightM_displaycontrol (fun x => Z.lor x bit)). Qed.

Lemma lightM_displaycontrol_clear (bit : Z) : lightM (displaycontrol_clear bit).
Proof. exact (lightM_displaycontrol (fun x => u8 (Z.land x (Z.lnot bit)))). Qed.

Lemma lightM_entrymode_set (bit : Z) : lightM (entrymode_set bit).
Proof. exact (lightM_entrymode (fun x => Z.lor x bit)). Qed.

Lemma lightM_entrymode_clear (bit : Z) : lightM (entrymode_clear bit).
Proof. exact (lightM_entrymode (fun x => u8 (Z.land x (Z.lnot bit)))). Qed.

Lemma lightM_clear : lightM clear.
Proof.
  unfold clear, delayMicroseconds.
  apply lightM_bind; [apply lightM_send | intros _; apply lightM_emit].
Qed.

Lemma lightM_begin (cols lines : Z) : lightM (begin cols lines).
Proof.
  unfold begin, display, leftToRight, delayMicroseconds, Wire_begin.
  repeat lazymatch goal with
  | |- lightM (bind _ _) => apply lightM_bind; [|intros _]
  | |- lightM (displaycontrol_set _) => apply lightM_displaycontrol_set
  | |- lightM (entrymode_set _) => apply lightM_entrymode_set
  | |- lightM clear => apply lightM_clear
  | |- lightM (emit _) => apply lightM_emit
  | |- lightM (_send _ _) => apply lightM_send
  | |- lightM (_sendNibble _ _) => apply lightM_sendNibble
  | |- lightM (_write2Wire _) => apply lightM_write2Wire
  | |- lightM (modify _) =>
      apply lightM_modify; let H := fresh in
      intros ? ? H; light_fields H; split; [reflexivity | assumption]
  end.
Qed.

Lemma lightM_run (BUFFER_LENGTH : Z) (o : op) : lightM (run BUFFER_LENGTH o).
Proof.
  destruct o; cbn [run].
  - apply lightM_begin.
  - apply lightM_clear.
  - unfold home, delayMicroseconds.
    apply lightM_bind; [apply lightM_send | intros _; apply lightM_emit].
  - unfold setCursor. destruct (nth_error row_offsets (Z.to_nat row));
      [apply lightM_send | apply lightM_undefined].
  - apply lightM_displaycontrol_clear.
  - apply lightM_displaycontrol_set.
  - apply lightM_displaycontrol_set.
  - apply lightM_displaycontrol_clear.
  - apply lightM_displaycontrol_set.
  - apply lightM_displaycontrol_clear.
  - apply lightM_send.
  - apply lightM_send.
  - apply lightM_entrymode_set.
  - apply lightM_entrymode_clear.
  - apply lightM_entrymode_set.
  - apply lightM_entrymode_clear.
  - unfold setBacklight.
    apply lightM_bind; [|intros _; apply lightM_write2Wire].
    apply lightM_modify. intros s1 s2 H. light_fields H.
    split; reflexivity.
  - apply lightM_createChar.
  - apply (lightM_createChar location charmap).
  - apply lightM_send.
  - apply lightM_bind; [apply lightM_write | intros _; apply lightM_ret].
  - apply lightM_bind; [apply lightM_write_buf | intros _; apply lightM_ret].
Qed.

Lemma lightM_run_all (BUFFER_LENGTH : Z) (os : list op) :
  lightM (run_all BUFFER_LENGTH os).
Proof. apply lightM_forM_. intros o. apply lightM_run. Qed.

Lemma setBacklight_light (b1 b2 : Z) (s : LCD) :
  (0 <? b1) = (0 <? b2) ->
  light_rel (setBacklight b1 s) (setBacklight b2 s).
Proof.
  intros Hon. rewrite !setBacklight_run. simpl. rewrite Hon.
  split; [reflexivity|]. split; [|reflexivity].
  split; [reflexivity | exact Hon].
Qed.

(** C8. For two backlight levels that are both zero or both above zero,
    [setBacklight] followed by any sequence of calls produces the same log,
    byte for byte, whichever of the two levels is stored; the two runs are
    both defined or both undefined and end in objects that differ at most
    in the stored magnitude.  The same holds for any call sequence started
    on two objects that differ only in such levels. *)
Theorem backlight_magnitude_not_on_wire
        (BUFFER_LENGTH : Z) (s : LCD) (b1 b2 : Z) (os : list op) :
  (0 <? b1) = (0 <? b2) ->
  log_of (run_all BUFFER_LENGTH (SetBacklight b1 :: os) s) =
  log_of (run_all BUFFER_LENGTH (SetBacklight b2 :: os) s) /\
  light_rel (run_all BUFFER_LENGTH (SetBacklight b1 :: os) s)
            (run_all BUFFER_LENGTH (SetBacklight b2 :: os) s) /\
  log_of (run_all BUFFER_LENGTH os (set_backlight b1 s)) =
  log_of (run_all BUFFER_LENGTH os (set_backlight b2 s)).
Proof.
  intros Hon.
  assert (Hrel : light_rel (run_all BUFFER_LENGTH (SetBacklight b1 :: os) s)
                           (run_all BUFFER_LENGTH (SetBacklight b2 :: os) s)).
  { unfold run_all. cbn [forM_ run]. unfold bind.
    pose proof (setBacklight_light b1 b2 s Hon) as H1.
    destruct (setBacklight b1 s) as [[[u1 s1] t1]|],
             (setBacklight b2 s) as [[[u2 s2] t2]|];
      simpl in H1; try contradiction; [|exact Logic.I].
    destruct H1 as (_ & Hs & <-).
    pose proof (lightM_run_all BUFFER_LENGTH os s1 s2 Hs) as H2.
    unfold run_all in H2.
    destruct (forM_ os (run BUFFER_LENGTH) s1) as [[[v1 s1'] w1]|],
             (forM_ os (run BUFFER_LENGTH) s2) as [[[v2 s2'] w2]|];
      simpl in H2; try contradiction; [|exact Logic.I].
    destruct H2 as (<- & Hs' & <-). simpl. auto. }
  split; [apply light_rel_log; exact Hrel|]. split; [exact Hrel|].
  apply light_rel_log. apply lightM_run_all.
  split; [reflexivity | exact Hon].
Qed.

(** ** The theorems at concrete inputs *)

Lemma new_default_wf : wf (new_default 0x27).
Proof. apply (init_wf 0x27 default_pins). unfold is_u8. lia. Qed.

(** Sending the character 'H' as data on the default wiring. *)
Lemma send_emits_frame_witness :
  wf (new_default 0x27) /\ is_u8 0x48 /\
  _send 0x48 true (new_default 0x27) =
    Some (tt, new_default 0x27,
          [ BeginTransmission 0x27;
            WireWrite 0x45; WireWrite 0x41; WireWrite 0x85; WireWrite 0x81;
            EndTransmission ]).
Proof.
  assert (Hv : is_u8 0x48) by (unfold is_u8; lia).
  split; [exact new_default_wf|]. split; [exact Hv|].
  destruct (send_emits_frame (new_default 0x27) 0x48 true new_default_wf Hv)
    as [E _].
  rewrite E. reflexivity.
Defined.

(** The default wiring has disjoint masks. *)
Lemma init_masks_disjoint_witness :
  (forall s, 0 <= pin_of default_pins s <= 7 \/
             (optional s = true /\ pin_of default_pins s = 255)) /\
  mask_of (init_pins 0x27 default_pins) EN = Z.shiftl 1 2 /\
  Z.land (mask_of (init_pins 0x27 default_pins) RS)
         (mask_of (init_pins 0x27 default_pins) EN) = 0.
Proof.
  assert (Hr : forall s, 0 <= pin_of default_pins s <= 7 \/
                         (optional s = true /\ pin_of default_pins s = 255))
    by (intros s; left; destruct s; simpl; lia).
  split; [exact Hr|].
  destruct (init_masks_disjoint 0x27 default_pins Hr) as (Hm & _ & Hd).
  split.
  - apply (Hm EN). simpl. lia.
  - apply (Hd RS EN). simpl. lia.
Defined.

(** Register select and enable both on bit 2. *)
Lemma conflicting_pins_alias_witness :
  RS <> EN /\
  construct 0x27 (mkPins 2 255 2 4 5 6 7 3) =
    Some (init_pins 0x27 (mkPins 2 255 2 4 5 6 7 3)) /\
  mask_of (init_pins 0x27 (mkPins 2 255 2 4 5 6 7 3)) EN =
  mask_of (init_pins 0x27 (mkPins 2 255 2 4 5 6 7 3)) RS.
Proof.
  assert (Hne : RS <> EN) by discriminate.
  split; [exact Hne|].
  destruct (conflicting_pins_alias 0x27 (mkPins 2 255 2 4 5 6 7 3) RS EN Hne
              eq_refl ltac:(simpl; lia)) as (Hc & _ & Ha).
  split; [exact Hc | exact Ha].
Defined.

(** Nine characters against the 32 byte buffer of the AVR [Wire] library. *)
Lemma write_buf_batches_witness :
  4 <= 32 <= 256 /\
  exists t txs,
    write_buf 32 [72; 101; 108; 108; 111; 32; 76; 67; 68] (new_default 0x27) =
      Some (9, new_default 0x27, t) /\
    transactions t = Some txs /\
    (1 < length txs)%nat /\
    total_bytes txs = 36 /\
    Forall (fun tx => Z.of_nat (length tx) = 28) (removelast txs).
Proof.
  assert (HB : 4 <= 32 <= 256) by lia.
  split; [exact HB|].
  destruct (write_buf_batches 32 (new_default 0x27)
              [72; 101; 108; 108; 111; 32; 76; 67; 68] HB ltac:(simpl; lia))
    as (t & txs & Hrun & Htx & Hn & _ & _ & _ & Htot & Hexact & _).
  exists t, txs. repeat (split; [assumption|]). exact Hexact.
Defined.

(** [setCursor(2, 1)]. *)
Lemma setCursor_sends_address_witness :
  is_u8 2 /\ 0 <= 1 <= 3 /\
  setCursor 2 1 (new_default 0x27) = _send 0xC2 false (new_default 0x27).
Proof.
  assert (Hc : is_u8 2) by (unfold is_u8; lia).
  assert (Hr : 0 <= 1 <= 3) by lia.
  split; [exact Hc|]. split; [exact Hr|].
  destruct (setCursor_sends_address (new_default 0x27) 2 1 Hc Hr)
    as (_ & _ & _ & _ & E).
  exact E.
Defined.

(** [blink(); noBlink();] on a fresh object, where blink is off. *)
Lemma blink_then_noBlink_witness :
  is_u8 (_displaycontrol (new_default 0x27)) /\
  state_of ((blink ;; noBlink) (new_default 0x27)) = Some (new_default 0x27).
Proof.
  assert (Hd : is_u8 (_displaycontrol (new_default 0x27)))
    by (unfold is_u8; simpl; lia).
  split; [exact Hd|].
  destruct (blink_then_noBlink (new_default 0x27) Hd) as (_ & Hback & _).
  apply Hback. reflexivity.
Defined.

(** Levels 1 and 255, then a character. *)
Lemma backlight_magnitude_not_on_wire_witness :
  (0 <? 1) = (0 <? 255) /\
  log_of (run_all 32 [SetBacklight 1; Write 0x48] (new_default 0x27)) =
  log_of (run_all 32 [SetBacklight 255; Write 0x48] (new_default 0x27)).
Proof.
  split; [reflexivity|].
  destruct (backlight_magnitude_not_on_wire 32 (new_default 0x27) 1 255
              [Write 0x48] eq_refl) as (E & _).
  exact E.
Defined.

Lemma default_pins_rw_apart : rw_apart default_pins.
Proof. right. intros s Hs. destruct s; simpl; (congruence || lia). Qed.

(** Initialization, backlight on and two characters on the default wiring. *)
Lemma rw_never_asserted_witness :
  rw_apart default_pins /\
  exists s' t,
    run_all 32 [Begin 16 2; SetBacklight 255; WriteBuf [0x48; 0x69]]
            (init_pins 0x27 default_pins) = Some (tt, s', t) /\
    Forall (rw_clear s') (written t).
Proof.
  split; [exact default_pins_rw_apart|].
  destruct (rw_never_asserted 32 0x27 default_pins
              [Begin 16 2; SetBacklight 255; WriteBuf [0x48; 0x69]]
              default_pins_rw_apart
              ltac:(repeat constructor))
    as (s' & t & Hrun & _ & Hb & _).
  exists s', t. split; assumption.
Defined.

(** [setCursor(2, 1)] keeps the object. *)
Lemma sends_only_keeps_state_witness :
  sends_only (SetCursor 2 1) = true /\ in_bounds (SetCursor 2 1) /\
  exists t, run 32 (SetCursor 2 1) (new_default 0x27) = Some (tt, new_default 0x27, t).
Proof.
  assert (Hb : in_bounds (SetCursor 2 1)) by (simpl; lia).
  split; [reflexivity|]. split; [exact Hb|].
  destruct (sends_only_keeps_state 32 (SetCursor 2 1) (new_default 0x27) eq_refl Hb)
    as (t & Hrun & _).
  exists t. exact Hrun.
Defined.

(** ** Tests on concrete inputs *)

(** The wiring of the JOY-IT module: no backlight pin. *)
Example joy_it_masks :
  new_of_type 0x27 LiquidCrystal_PCF8574_JOY_IT =
  mkLCD 0x27 0 None 0x02 0x04 0x10 0x20 0x80 0 [0x01; 0x02; 0x04; 0x08].
Proof. reflexivity. Qed.

(** A pin number of 8 or more shifts the bit out of the byte. *)
Example bit_mask_out_of_byte : bit_mask 8 = 0 /\ bit_mask 7 = 0x80.
Proof. split; reflexivity. Qed.

(** "Hi" on the default wiring: two frames with register select high, in
    one transmission. *)
Example write_Hi :
  write_buf 32 [0x48; 0x69] (new_default 0x27) =
  Some (2, new_default 0x27,
        [ BeginTransmission 0x27;
          WireWrite 0x45; WireWrite 0x41; WireWrite 0x85; WireWrite 0x81;
          WireWrite 0x65; WireWrite 0x61; WireWrite 0x95; WireWrite 0x91;
          EndTransmission ]).
Proof. vm_compute. reflexivity. Qed.

(** Nine characters and a 32 byte buffer: seven characters fill the first
    transmission, two are left for the second. *)
Example write_nine_characters :
  option_map (map (@length Z))
    (match log_of (write_buf 32 [72; 101; 108; 108; 111; 32; 76; 67; 68]
                     (new_default 0x27)) with
     | Some t => transactions t
     | None => None
     end) = Some [28%nat; 8%nat].
Proof. vm_compute. reflexivity. Qed.

(** With the light on, [setBacklight] latches backlight and register
    select. *)
Example setBacklight_on :
  log_of (setBacklight 1 (new_default 0x27)) =
  Some [BeginTransmission 0x27; WireWrite 0x09; EndTransmission].
Proof. vm_compute. reflexivity. Qed.

(** Row 4 of [setCursor] reads past the offset table. *)
Example setCursor_row_4 : setCursor 0 4 (new_default 0x27) = None.
Proof. reflexivity. Qed.

(** A glyph for slot 9 goes to slot 1: CGRAM address 0x48. *)
Example createChar_slot_9 :
  option_map (firstn 6)
    (log_of (createChar 9 [0; 0; 0; 0; 0; 0; 0; 0] (new_pins_rw 0x27 0 1 2 4 5 6 7 3))) =
  Some [ BeginTransmission 0x27;
         WireWrite 0x44; WireWrite 0x40; WireWrite 0x84; WireWrite 0x80;
         EndTransmission ].
Proof. vm_compute. reflexivity. Qed.

(** ** A frame read back *)

Lemma of_bits_byte (v : Z) : is_u8 v -> of_bits v = v.
Proof.
  intros [Hlo Hhi].
  assert (Hall : forallb (fun n => of_bits (Z.of_nat n) =? Z.of_nat n) (seq 0 256) = true)
    by (vm_compute; reflexivity).
  rewrite forallb_forall in Hall.
  specialize (Hall (Z.to_nat v)).
  rewrite Z2Nat.id in Hall by assumption.
  apply Z.eqb_eq. apply Hall. apply in_seq. lia.
Qed.

Section DataLines.

Variable s : LCD.

Hypothesis data_nonzero : forall i, (i < 4)%nat -> data_mask s i <> 0.
Hypothesis data_disjoint : forall i j, (i < 4)%nat -> (j < 4)%nat -> i <> j ->
  Z.land (data_mask s i) (data_mask s j) = 0.

(** With the base byte clear of the data lines, data line [i] of a nibble
    byte is high exactly when the bit of the value is set. *)
Lemma nibble_line (v first base : Z) (i : nat) :
  (forall j, (j < 4)%nat -> Z.land base (data_mask s j) = 0) ->
  (i < 4)%nat ->
  nz (Z.land (spec_nibble s v first base) (data_mask s i)) =
  Z.testbit v (first + Z.of_nat i).
Proof.
  intros Hbase Hi.
  assert (Hself : forall m, m <> 0 -> nz m = true).
  { intros m Hm. unfold nz. destruct (Z.eqb_spec m 0); [contradiction | reflexivity]. }
  unfold spec_nibble. cbn [fold_left seq].
  destruct i as [|[|[|[|i]]]]; [| | | |lia];
    repeat match goal with
    | |- context [if Z.testbit v ?k then _ else _] => destruct (Z.testbit v k) eqn:?
    end;
    rewrite ?Z.land_lor_distr_l, ?Z.land_diag, ?Hbase by lia;
    rewrite ?(data_disjoint 0 1), ?(data_disjoint 0 2), ?(data_disjoint 0 3),
      ?(data_disjoint 1 0), ?(data_disjoint 1 2), ?(data_disjoint 1 3),
      ?(data_disjoint 2 0), ?(data_disjoint 2 1), ?(data_disjoint 2 3),
      ?(data_disjoint 3 0), ?(data_disjoint 3 1), ?(data_disjoint 3 2) by lia;
    rewrite ?Z.lor_0_l, ?Z.lor_0_r;
    cbn [Z.of_nat Pos.of_succ_nat Pos.succ] in *;
    repeat match goal with
    | H : Z.testbit v ?a = _ |- context [Z.testbit v ?b] =>
        replace b with a by lia; rewrite H
    end;
    first [ reflexivity | apply Hself; apply data_nonzero; lia ].
Qed.

Lemma decode_spec_frame (v : Z) (d : bool) :
  (forall j, (j < 4)%nat -> Z.land (spec_base s d) (data_mask s j) = 0) ->
  decode_frame s (spec_frame s v d) = Some (of_bits v).
Proof.
  intros Hbase. unfold spec_frame, decode_frame, decode_nibble, spec_high, spec_low.
  rewrite !nibble_line by (assumption || lia).
  reflexivity.
Qed.

End DataLines.

Lemma data_mask_line (s : LCD) (i : nat) :
  (i < 4)%nat -> data_mask s i = mask_of s (data_line i).
Proof.
  intros Hi. destruct i as [|[|[|[|i]]]]; try reflexivity. lia.
Qed.

Lemma data_line_signal (i : nat) : data_signal (data_line i) = true.
Proof. destruct i as [|[|[|i]]]; reflexivity. Qed.

Lemma data_line_inj (i j : nat) :
  (i < 4)%nat -> (j < 4)%nat -> i <> j -> data_line i <> data_line j.
Proof.
  intros Hi Hj Hne.
  destruct i as [|[|[|[|i]]]], j as [|[|[|[|j]]]];
    try lia; try discriminate; contradiction.
Qed.

Lemma init_data_mask (i2cAddr : Z) (p : pins) (d : signal) :
  data_lines_apart p -> data_signal d = true ->
  mask_of (init_pins i2cAddr p) d = bit_mask (pin_of p d) /\
  mask_of (init_pins i2cAddr p) d <> 0.
Proof.
  intros [Hr _] Hd. rewrite mask_of_init.
  assert (Ho : optional d = false) by (destruct d; try discriminate; reflexivity).
  rewrite Ho. cbn [andb]. split; [reflexivity|].
  rewrite bit_mask_low, Z.shiftl_1_l by auto.
  assert (0 < 2 ^ pin_of p d) by (apply Z.pow_pos_nonneg; [lia | apply Hr; assumption]).
  lia.
Qed.

Lemma init_data_disjoint (i2cAddr : Z) (p : pins) (d s : signal) :
  data_lines_apart p -> data_signal d = true -> s <> d -> s <> RW -> s <> EN ->
  Z.land (mask_of (init_pins i2cAddr p) s) (mask_of (init_pins i2cAddr p) d) = 0.
Proof.
  intros Hp Hd Hsd Hrw Hen.
  destruct (init_data_mask i2cAddr p d Hp Hd) as [-> _].
  rewrite mask_of_init.
  destruct (optional s && (pin_of p s =? 255)); [apply Z.land_0_l|].
  apply bit_mask_disjoint. destruct Hp as [_ Hp]. apply Hp; assumption.
Qed.

(** X1. On a wiring where every data line has a bit of its own, the
    display reads back from the frame of [_send(v, isData)] exactly the
    byte [v]: the data lines at the two falling edges of enable carry the
    high and the low nibble.  This holds whatever the backlight level and
    the flags are. *)
Theorem send_round_trip (i2cAddr : Z) (p : pins) (s : LCD) (v : Z) (isData : bool) :
  data_lines_apart p -> same_masks (init_pins i2cAddr p) s -> is_u8 v ->
  exists f,
    _send v isData s =
      Some (tt, s, BeginTransmission (_i2cAddr s) :: map WireWrite f ++ [EndTransmission]) /\
    decode_frame s f = Some v.
Proof.
  intros Hp (Hrs & _ & _ & Hbl & Hdm) Hv.
  set (s0 := init_pins i2cAddr p) in *.
  assert (Hmask : forall i, data_mask s i = data_mask s0 i)
    by (intros i; unfold data_mask; rewrite Hdm; reflexivity).
  exists (spec_frame s v isData). split; [apply _send_run|].
  transitivity (Some (of_bits v)); [|rewrite of_bits_byte by assumption; reflexivity].
  apply decode_spec_frame.
  - intros i Hi. rewrite Hmask, data_mask_line by assumption.
    apply (init_data_mask i2cAddr p); [assumption | apply data_line_signal].
  - intros i j Hi Hj Hne. rewrite !Hmask, !data_mask_line by assumption.
    apply init_data_disjoint; try assumption.
    + apply data_line_signal.
    + apply data_line_inj; assumption.
    + destruct i as [|[|[|i]]]; discriminate.
    + destruct i as [|[|[|i]]]; discriminate.
  - intros j Hj. rewrite Hmask, data_mask_line by assumption.
    unfold spec_base. rewrite Z.land_lor_distr_l, Hrs, Hbl.
    assert (Hrs0 : Z.land (_rs_mask s0) (mask_of s0 (data_line j)) = 0).
    { apply (init_data_disjoint i2cAddr p (data_line j) RS); try assumption;
        try discriminate; try apply data_line_signal.
      destruct j as [|[|[|j]]]; discriminate. }
    assert (Hbl0 : Z.land (_backlight_mask s0) (mask_of s0 (data_line j)) = 0).
    { apply (init_data_disjoint i2cAddr p (data_line j) BL); try assumption;
        try discriminate; try apply data_line_signal.
      destruct j as [|[|[|j]]]; discriminate. }
    destruct (0 <? _backlight s), isData;
      rewrite ?Hrs0, ?Hbl0, ?Z.land_0_l; reflexivity.
Qed.

(** ** A full send and the raw nibble path *)

Lemma spec_high_shift (s : LCD) (v : Z) (d : bool) :
  spec_high s v d = spec_low s (Z.shiftr v 4) d.
Proof.
  unfold spec_high, spec_low, spec_nibble. cbn [fold_left seq].
  rewrite !Z.shiftr_spec by (cbn; lia). reflexivity.
Qed.

(** X2. The bytes of [_send(v, isData)] are those of
    [_sendNibble(v >> 4, isData)] followed by those of
    [_sendNibble(v, isData)]: a full send is the two raw nibble pulses, high
    nibble first, put into one transmission; [_sendNibble] looks at the low
    four bits of its argument only. *)
Theorem send_is_two_nibbles (s : LCD) (v : Z) (isData : bool) :
  exists t th tl,
    _send v isData s = Some (tt, s, t) /\
    _sendNibble (Z.shiftr v 4) isData s = Some (tt, s, th) /\
    _sendNibble v isData s = Some (tt, s, tl) /\
    written t = written th ++ written tl /\
    _sendNibble (Z.land v 0x0F) isData s = _sendNibble v isData s.
Proof.
  exists (frame_log s v isData), (nibble_log s (Z.shiftr v 4) isData),
    (nibble_log s v isData).
  split; [apply _send_run|]. split; [apply _sendNibble_run|].
  split; [apply _sendNibble_run|]. split.
  - unfold frame_log, nibble_log, spec_frame. cbn [written flat_map map app].
    rewrite spec_high_shift. reflexivity.
  - rewrite !_sendNibble_run. unfold nibble_log, spec_low, spec_nibble.
    cbn [fold_left seq]. change 0x0F with (Z.ones 4).
    rewrite !Z.land_spec, !Z.ones_spec_low by (cbn; lia).
    rewrite !andb_true_r. reflexivity.
Qed.

(** ** Writing a buffer and writing byte by byte *)

Lemma writes_run (BUFFER_LENGTH : Z) (buffer : list Z) (s : LCD) :
  exists t,
    run_all BUFFER_LENGTH (map Write buffer) s = Some (tt, s, t) /\
    written t = flat_map (fun v => spec_frame s v true) buffer.
Proof.
  unfold run_all. induction buffer as [|v buffer IH]; cbn [map forM_ run].
  - exists []. split; reflexivity.
  - destruct IH as (t & IH & Hw). unfold bind at 1 2. rewrite write_run.
    cbn [ret]. rewrite IH. eexists. split; [reflexivity|].
    rewrite !written_app, Hw. cbn [flat_map written app].
    rewrite app_nil_r. reflexivity.
Qed.

(** X3. Whatever the frame bound is, [write(buffer, size)] completes,
    returns [size], leaves the object as it is and hands to [Wire.write]
    exactly the bytes that [size] calls of [write(ch)] hand to it, in the
    same order: batching moves the transaction boundaries only. *)
Theorem write_buf_bytes_as_writes (BUFFER_LENGTH : Z) (buffer : list Z) (s : LCD) :
  exists t t',
    write_buf BUFFER_LENGTH buffer s = Some (Z.of_nat (length buffer), s, t) /\
    run_all BUFFER_LENGTH (map Write buffer) s = Some (tt, s, t') /\
    written t = written t' /\
    length (written t) = (4 * length buffer)%nat.
Proof.
  destruct (write_buf_total BUFFER_LENGTH buffer s) as (t & Hrun & Hw).
  destruct (writes_run BUFFER_LENGTH buffer s) as (t' & Hrun' & Hw').
  exists t, t'. split; [exact Hrun|]. split; [exact Hrun'|].
  split; [rewrite Hw, Hw'; reflexivity|].
  rewrite Hw. clear. induction buffer as [|v buffer IH]; cbn [flat_map length].
  - reflexivity.
  - rewrite length_app, IH. cbn [spec_frame length]. lia.
Qed.

(** ** A buffer that fits *)

Section Fits.

Variable BUFFER_LENGTH : Z.
Hypothesis BUFFER_LENGTH_range : 4 <= BUFFER_LENGTH <= 256.

(** While the bytes still to come stay below the bound, the loop begins a
    transmission only if none is open and ends it at most after the last
    byte. *)
Lemma write_loop_fits (s : LCD) (out1 : Z) (buffer : list Z) :
  forall v c,
    c = 0 \/ 0 < c < BUFFER_LENGTH - 4 ->
    c + 4 * Z.of_nat (length (v :: buffer)) < BUFFER_LENGTH ->
    exists c',
      write_loop BUFFER_LENGTH (v :: buffer) out1 c s =
        Some (c', s,
              (if c =? 0 then [BeginTransmission (_i2cAddr s)] else [])
              ++ map WireWrite (flat_map (data_frame s out1) (v :: buffer))
              ++ (if c' =? 0 then [EndTransmission] else [])) /\
      (c' = 0 \/ 0 < c').
Proof.
  induction buffer as [|v' buffer IH]; intros v c Hc Hfit;
    rewrite write_loop_cons;
    (assert (Hc4 : u8 (c + 4) = c + 4)
      by (apply u8_small; unfold is_u8; cbn [length] in Hfit; lia));
    rewrite Hc4.
  - cbn [write_loop ret flat_map]. rewrite app_nil_r.
    destruct (Z.leb_spec (BUFFER_LENGTH - 4) (c + 4)).
    + exists 0. split; [|left; reflexivity]. cbn [Z.eqb].
      rewrite app_nil_r. reflexivity.
    + exists (c + 4). split; [|right; lia].
      destruct (Z.eqb_spec (c + 4) 0); [lia|]. reflexivity.
  - assert (Hroom : (BUFFER_LENGTH - 4 <=? c + 4) = false).
    { apply Z.leb_gt. cbn [length] in Hfit. lia. }
    rewrite Hroom.
    destruct (IH v' (c + 4)) as (c' & -> & Hc').
    { right. cbn [length] in Hfit. lia. }
    { cbn [length] in *. lia. }
    exists c'. split; [|exact Hc'].
    destruct (Z.eqb_spec (c + 4) 0); [lia|].
    cbn [flat_map app]. rewrite !map_app, <- !app_assoc. reflexivity.
Qed.

End Fits.

(** X4. With a frame bound between 4 and 256, a non-empty buffer with
    [4 * size] below the bound goes out in exactly one transmission: begin,
    the frames of all bytes in order, end.  An empty buffer makes no call
    to [Wire] at all. *)
Theorem write_buf_single_transmission (BUFFER_LENGTH : Z) (s : LCD) (buffer : list Z) :
  4 <= BUFFER_LENGTH <= 256 ->
  4 * Z.of_nat (length buffer) < BUFFER_LENGTH ->
  write_buf BUFFER_LENGTH buffer s =
    Some (Z.of_nat (length buffer), s,
          match buffer with
          | [] => []
          | _ => BeginTransmission (_i2cAddr s)
                   :: map WireWrite (flat_map (fun v => spec_frame s v true) buffer)
                   ++ [EndTransmission]
          end).
Proof.
  intros HB Hfit. rewrite write_buf_unfold.
  destruct buffer as [|v buffer].
  - reflexivity.
  - unfold bind at 1.
    destruct (write_loop_fits BUFFER_LENGTH HB s (spec_base s true) buffer v 0
                (or_introl eq_refl) Hfit) as (c' & -> & Hc').
    cbn [Z.eqb].
    assert (Hframes : flat_map (data_frame s (spec_base s true)) (v :: buffer) =
                      flat_map (fun v => spec_frame s v true) (v :: buffer))
      by reflexivity.
    rewrite Hframes. unfold bind, when, ret, Wire_endTransmission, emit, nz.
    destruct (Z.eqb_spec c' 0) as [->|Hne]; cbn [negb].
    + rewrite !app_nil_r. reflexivity.
    + rewrite !app_nil_r. reflexivity.
Qed.

(** ** The cursor address *)

Lemma lor_0x80_byte (r : Z) : is_u8 r -> Z.lor 0x80 r = 0x80 + r mod 128.
Proof.
  intros [Hlo Hhi].
  assert (Hall : forallb (fun n => Z.lor 0x80 (Z.of_nat n) =? 0x80 + Z.of_nat n mod 128)
                         (seq 0 256) = true) by (vm_compute; reflexivity).
  rewrite forallb_forall in Hall. specialize (Hall (Z.to_nat r)).
  rewrite Z2Nat.id in Hall by assumption.
  apply Z.eqb_eq. apply Hall. apply in_seq. lia.
Qed.

Lemma u8_lor_0x80 (x : Z) : u8 (Z.lor 0x80 x) = 0x80 + x mod 128.
Proof.
  assert (Hr : is_u8 (x mod 256)) by (unfold is_u8; apply Z.mod_pos_bound; lia).
  assert (E : u8 (Z.lor 0x80 x) = Z.lor 0x80 (x mod 256)).
  { unfold u8. change 256 with (2 ^ 8). rewrite <- !Z.land_ones by lia.
    rewrite Z.land_lor_distr_l. reflexivity. }
  rewrite E, lor_0x80_byte by assumption.
  replace (x mod 256 mod 128) with (x mod 128); [reflexivity|].
  pose proof (Z.mod_pos_bound x 256 ltac:(lia)).
  pose proof (Z.mod_pos_bound x 128 ltac:(lia)).
  pose proof (Z.mod_pos_bound (x mod 256) 128 ltac:(lia)).
  pose proof (Z.div_mod x 256 ltac:(lia)).
  pose proof (Z.div_mod x 128 ltac:(lia)).
  pose proof (Z.div_mod (x mod 256) 128 ltac:(lia)).
  lia.
Qed.

(** X5. For every column and every row in [0,3], the instruction
    [setCursor] sends is [0x80 + (row_offsets[row] + col) mod 128]: bit 7
    is always set, so the byte is a set-address instruction whatever the
    column, and the address wraps modulo 128 instead of spilling into
    another instruction. *)
Theorem setCursor_address_wraps (s : LCD) (col row : Z) :
  0 <= row <= 3 ->
  setCursor col row s =
    _send (0x80 + (nth (Z.to_nat row) row_offsets 0 + col) mod 128) false s /\
  0x80 <= 0x80 + (nth (Z.to_nat row) row_offsets 0 + col) mod 128 <= 0xFF.
Proof.
  intros Hr. split.
  - rewrite setCursor_run, _send_run by assumption. rewrite u8_lor_0x80.
    reflexivity.
  - pose proof (Z.mod_pos_bound (nth (Z.to_nat row) row_offsets 0 + col) 128
                  ltac:(lia)).
    lia.
Qed.

(** ** Bits that are never driven *)

Lemma within_lor (mask a b : Z) : within mask a -> within mask b -> within mask (Z.lor a b).
Proof.
  unfold within. intros Ha Hb. rewrite Z.land_lor_distr_l, Ha, Hb. reflexivity.
Qed.

Lemma within_part (a b : Z) : within (Z.lor a b) a.
Proof.
  unfold within. apply Z.bits_inj'. intros n _.
  rewrite Z.land_spec, Z.lor_spec. destruct (Z.testbit a n), (Z.testbit b n); reflexivity.
Qed.

Lemma within_later (a b m : Z) : within b m -> within (Z.lor a b) m.
Proof.
  unfold within. intros H. apply Z.bits_inj'. intros n _.
  rewrite Z.land_spec, Z.lor_spec, <- H, Z.land_spec.
  destruct (Z.testbit a n), (Z.testbit b n), (Z.testbit m n); reflexivity.
Qed.

Lemma within_wired (s0 s : LCD) :
  length (_data_mask s0) = 4%nat -> same_masks s0 s ->
  within (wired s0) (_rs_mask s) /\ within (wired s0) (_enable_mask s) /\
  within (wired s0) (_backlight_mask s) /\
  forall i, within (wired s0) (data_mask s i).
Proof.
  intros Hlen (Hrs & _ & Hen & Hbl & Hdm).
  assert (Hm : forall i, data_mask s i = data_mask s0 i)
    by (intros i; unfold data_mask; rewrite Hdm; reflexivity).
  rewrite Hrs, Hen, Hbl.
  unfold wired. split; [apply within_part|].
  split; [apply within_later, within_part|].
  split; [do 2 apply within_later; apply within_part|].
  intros i. rewrite Hm. destruct i as [|[|[|[|i]]]].
  - do 3 apply within_later. apply within_part.
  - do 4 apply within_later. apply within_part.
  - do 5 apply within_later. apply within_part.
  - do 5 apply within_later. rewrite Z.lor_comm. apply within_part.
  - assert (E : data_mask s0 (S (S (S (S i)))) = 0)
      by (unfold data_mask; apply nth_overflow; rewrite Hlen; lia).
    rewrite E. apply Z.land_0_l.
Qed.

(** X6. Every byte that any sequence of calls (array reads in bounds)
    hands to [Wire.write] raises only bits that the register-select,
    enable, backlight or a data signal is wired to: expander bits without
    such a signal, among them a read/write line with a bit of its own, stay
    low for good. *)
Theorem only_wired_bits_driven (BUFFER_LENGTH i2cAddr : Z) (p : pins) (os : list op) :
  Forall in_bounds os ->
  exists s' t,
    run_all BUFFER_LENGTH os (init_pins i2cAddr p) = Some (tt, s', t) /\
    wired s' = wired (init_pins i2cAddr p) /\
    Forall (within (wired (init_pins i2cAddr p))) (written t).
Proof.
  intros Hos. set (s0 := init_pins i2cAddr p).
  assert (H0 : same_masks s0 s0) by (repeat split).
  destruct (sends_run_all (same_masks s0) (within (wired s0))
              (Z.land_0_l _) (within_lor (wired s0))
              (fun s => within_wired s0 s eq_refl)
              (fun v s H => H) (fun v s H => H) (fun v s H => H) (fun v s H => H)
              BUFFER_LENGTH os Hos s0 H0)
    as ([] & s' & t & Hrun & Hs' & _ & Hbytes).
  exists s', t. split; [exact Hrun|]. split; [|exact Hbytes].
  destruct Hs' as (Hrs & _ & Hen & Hbl & Hdm).
  unfold wired, data_mask. rewrite Hrs, Hen, Hbl, Hdm. reflexivity.
Qed.

(** ** What each call assigns *)

Lemma run_post (BUFFER_LENGTH : Z) (o : op) (s : LCD) :
  in_bounds o -> exists t, run BUFFER_LENGTH o s = Some (tt, post o s, t).
Proof.
  intros Hin.
  destruct o; cbn [run in_bounds post] in *;
    unfold noDisplay, display, cursor, noCursor, blink, noBlink,
      leftToRight, rightToLeft, autoscroll, noAutoscroll,
      scrollDisplayLeft, scrollDisplayRight, command.
  - rewrite begin_run. eexists. reflexivity.
  - rewrite clear_run. eexists. reflexivity.
  - rewrite home_run. eexists. reflexivity.
  - rewrite setCursor_run by assumption. eexists. reflexivity.
  - rewrite displaycontrol_clear_run. eexists. reflexivity.
  - rewrite displaycontrol_set_run. eexists. reflexivity.
  - rewrite displaycontrol_set_run. eexists. reflexivity.
  - rewrite displaycontrol_clear_run. eexists. reflexivity.
  - rewrite displaycontrol_set_run. eexists. reflexivity.
  - rewrite displaycontrol_clear_run. eexists. reflexivity.
  - rewrite _send_run. eexists. reflexivity.
  - rewrite _send_run. eexists. reflexivity.
  - rewrite entrymode_set_run. eexists. reflexivity.
  - rewrite entrymode_clear_run. eexists. reflexivity.
  - rewrite entrymode_set_run. eexists. reflexivity.
  - rewrite entrymode_clear_run. eexists. reflexivity.
  - rewrite setBacklight_run. eexists. reflexivity.
  - destruct (createChar_run location charmap s Hin) as (t & -> & _).
    eexists. reflexivity.
  - destruct (createCharPgm_run location charmap s Hin) as (t & -> & _).
    eexists. reflexivity.
  - rewrite _send_run. eexists. reflexivity.
  - unfold bind. rewrite write_run. eexists. reflexivity.
  - unfold bind.
    destruct (write_buf_total BUFFER_LENGTH buffer s) as (t & -> & _).
    eexists. reflexivity.
Qed.

Lemma run_all_post (BUFFER_LENGTH : Z) (os : list op) (s : LCD) :
  Forall in_bounds os ->
  exists t,
    run_all BUFFER_LENGTH os s = Some (tt, fold_left (fun x o => post o x) os s, t).
Proof.
  intros Hos. revert s. unfold run_all.
  induction Hos as [|o os Ho _ IH]; intros s; cbn [forM_ fold_left].
  - exists []. reflexivity.
  - destruct (run_post BUFFER_LENGTH o s Ho) as (t1 & H1).
    destruct (IH (post o s)) as (t2 & H2).
    exists (t1 ++ t2). unfold bind. rewrite H1, H2. reflexivity.
Qed.

Lemma small_flags_lor (x bit hi : Z) :
  0 <= x <= hi -> (hi = 7 \/ hi = 3) -> (bit = 1 \/ bit = 2 \/ (bit = 4 /\ hi = 7)) ->
  0 <= Z.lor x bit <= hi.
Proof.
  intros Hx Hhi Hbit.
  assert (Hc : x = 0 \/ x = 1 \/ x = 2 \/ x = 3 \/ x = 4 \/ x = 5 \/ x = 6 \/ x = 7) by lia.
  destruct Hhi as [-> | ->];
    destruct Hbit as [-> | [-> | [-> Hh]]];
    repeat (destruct Hc as [-> | Hc]; [cbn; lia|]); subst; cbn; lia.
Qed.

Lemma small_flags_land (x bit hi : Z) :
  0 <= x <= hi -> (hi = 7 \/ hi = 3) -> (bit = 1 \/ bit = 2 \/ bit = 4) ->
  0 <= u8 (Z.land x (Z.lnot bit)) <= hi.
Proof.
  intros Hx Hhi Hbit.
  assert (Hc : x = 0 \/ x = 1 \/ x = 2 \/ x = 3 \/ x = 4 \/ x = 5 \/ x = 6 \/ x = 7) by lia.
  destruct Hhi as [-> | ->];
    destruct Hbit as [-> | [-> | ->]];
    repeat (destruct Hc as [-> | Hc]; [cbn; lia|]); subst; cbn; lia.
Qed.

Lemma post_flags_ok (o : op) (s : LCD) : flags_ok s -> flags_ok (post o s).
Proof.
  intros [Hd He]. unfold flags_ok.
  destruct o; cbn [post _displaycontrol _entrymode set_displaycontrol
                   set_entrymode set_lines set_backlight];
    try (split; [exact Hd | exact He]);
    try (split; [|exact He]); try (split; [exact Hd|]);
    try (apply small_flags_lor; [assumption | auto | auto]);
    try (apply small_flags_land; [assumption | auto | auto]).
  split; lia.
Qed.

(** X7. The flag bytes hold flag bits only, whatever is called: from an
    object with [_displaycontrol] in [0,7] and [_entrymode] in [0,3], as
    every constructor leaves it, each sequence of calls (array reads in
    bounds) ends with both in those ranges again, so a display-control
    instruction stays in 0x08..0x0F and an entry-mode instruction in
    0x04..0x07. *)
Theorem flags_stay_in_range (BUFFER_LENGTH : Z) (os : list op) (s : LCD) :
  flags_ok s -> Forall in_bounds os ->
  exists s' t,
    run_all BUFFER_LENGTH os s = Some (tt, s', t) /\
    0 <= _displaycontrol s' <= 7 /\ 0 <= _entrymode s' <= 3 /\
    0x08 <= Z.lor 0x08 (_displaycontrol s') <= 0x0F /\
    0x04 <= Z.lor 0x04 (_entrymode s') <= 0x07.
Proof.
  intros Hs Hos.
  destruct (run_all_post BUFFER_LENGTH os s Hos) as (t & Hrun).
  exists (fold_left (fun x o => post o x) os s), t. split; [exact Hrun|].
  assert (Hok : flags_ok (fold_left (fun x o => post o x) os s)).
  { clear Hrun Hos. revert s Hs. induction os as [|o os IH]; intros s Hs.
    - exact Hs.
    - cbn [fold_left]. apply IH. apply post_flags_ok. exact Hs. }
  destruct Hok as [Hd He]. split; [exact Hd|]. split; [exact He|].
  set (d := _displaycontrol _) in *. set (e := _entrymode _) in *.
  clearbody d e.
  assert (Hdc : d = 0 \/ d = 1 \/ d = 2 \/ d = 3 \/ d = 4 \/ d = 5 \/ d = 6 \/ d = 7) by lia.
  assert (Hec : e = 0 \/ e = 1 \/ e = 2 \/ e = 3) by lia.
  split.
  - repeat (destruct Hdc as [-> | Hdc]; [cbn; lia|]). subst. cbn. lia.
  - repeat (destruct Hec as [-> | Hec]; [cbn; lia|]). subst. cbn. lia.
Qed.

(** X8. A call changes at most the member it is there for.  No call
    changes the address or a mask; only [setBacklight] changes the
    backlight level; only [begin] and the display, cursor and blink
    functions change [_displaycontrol]; only [begin] and the direction and
    autoscroll functions change [_entrymode]; only [begin] changes
    [_lines]. *)
Theorem call_changes_own_member (BUFFER_LENGTH : Z) (o : op) (s : LCD) :
  in_bounds o ->
  exists s' t,
    run BUFFER_LENGTH o s = Some (tt, s', t) /\
    _i2cAddr s' = _i2cAddr s /\ same_masks s s' /\
    ((forall b, o <> SetBacklight b) -> _backlight s' = _backlight s) /\
    (assigns_displaycontrol o = false -> _displaycontrol s' = _displaycontrol s) /\
    (assigns_entrymode o = false -> _entrymode s' = _entrymode s) /\
    ((forall cols lines, o <> Begin cols lines) -> _lines s' = _lines s).
Proof.
  intros Hin. destruct (run_post BUFFER_LENGTH o s Hin) as (t & Hrun).
  exists (post o s), t. split; [exact Hrun|].
  split; [destruct o; reflexivity|].
  split; [destruct o; repeat split|].
  split; [|split; [|split]].
  - intros Hb. destruct o; try reflexivity. elim (Hb brightness). reflexivity.
  - intros Hd. destruct o; try reflexivity; discriminate Hd.
  - intros He. destruct o; try reflexivity; discriminate He.
  - intros Hl. destruct o; try reflexivity. elim (Hl cols lines). reflexivity.
Qed.

(** ** Flags, bit by bit *)

Lemma testbit_lor_pow2 (x k j : Z) :
  0 <= k -> Z.testbit (Z.lor x (2 ^ k)) j = if j =? k then true else Z.testbit x j.
Proof.
  intros Hk. rewrite Z.lor_spec, Z.pow2_bits_eqb by assumption.
  rewrite (Z.eqb_sym k j). destruct (j =? k); [apply orb_true_r | apply orb_false_r].
Qed.

Lemma testbit_land_lnot_pow2 (x k j : Z) :
  0 <= k ->
  Z.testbit (Z.land x (Z.lnot (2 ^ k))) j = if j =? k then false else Z.testbit x j.
Proof.
  intros Hk. destruct (Z.lt_ge_cases j 0) as [Hneg|Hpos].
  - rewrite !Z.testbit_neg_r by assumption.
    destruct (j =? k); reflexivity.
  - rewrite Z.land_spec, Z.lnot_spec, Z.pow2_bits_eqb by assumption.
    rewrite (Z.eqb_sym k j). destruct (j =? k); [apply andb_false_r | apply andb_true_r].
Qed.

(** X9. Each of the ten flag functions ([display], [noDisplay], [cursor],
    [noCursor], [blink], [noBlink], [leftToRight], [rightToLeft],
    [autoscroll], [noAutoscroll]) sets or clears exactly one bit of its
    flag byte and leaves every other bit as it was, then sends one command
    frame carrying the new byte under its instruction (0x08 for display
    control, 0x04 for entry mode). *)
Theorem flag_function_effect (BUFFER_LENGTH : Z) (o : op) (k : Z) (b : bool) (s : LCD) :
  flag_effect o = Some (k, b) -> is_u8 (flag_byte o s) ->
  exists s' t,
    run BUFFER_LENGTH o s = Some (tt, s', t) /\
    Z.testbit (flag_byte o s') k = b /\
    (forall j, j <> k -> Z.testbit (flag_byte o s') j = Z.testbit (flag_byte o s) j) /\
    t = frame_log s (Z.lor (flag_instruction o) (flag_byte o s')) false.
Proof.
  intros Ho Hu.
  assert (Hset : forall x e, 0 <= e ->
            Z.testbit (Z.lor x (2 ^ e)) e = true /\
            forall j, j <> e -> Z.testbit (Z.lor x (2 ^ e)) j = Z.testbit x j).
  { intros x e He. split.
    - rewrite testbit_lor_pow2, Z.eqb_refl by assumption. reflexivity.
    - intros j Hj. rewrite testbit_lor_pow2 by assumption.
      destruct (Z.eqb_spec j e); [contradiction | reflexivity]. }
  assert (Hclr : forall x e, 0 <= e -> is_u8 x ->
            Z.testbit (u8 (Z.land x (Z.lnot (2 ^ e)))) e = false /\
            forall j, j <> e ->
              Z.testbit (u8 (Z.land x (Z.lnot (2 ^ e)))) j = Z.testbit x j).
  { intros x e He Hx. rewrite u8_land_l by assumption. split.
    - rewrite testbit_land_lnot_pow2, Z.eqb_refl by assumption. reflexivity.
    - intros j Hj. rewrite testbit_land_lnot_pow2 by assumption.
      destruct (Z.eqb_spec j e); [contradiction | reflexivity]. }
  destruct o; try discriminate Ho; injection Ho as <- <-;
    cbn [run flag_byte flag_instruction assigns_displaycontrol] in *;
    unfold noDisplay, display, cursor, noCursor, blink, noBlink,
      leftToRight, rightToLeft, autoscroll, noAutoscroll;
    rewrite ?displaycontrol_set_run, ?displaycontrol_clear_run,
      ?entrymode_set_run, ?entrymode_clear_run;
    eexists _, _; (split; [reflexivity|]);
    cbn [_displaycontrol _entrymode set_displaycontrol set_entrymode].
  - destruct (Hclr (_displaycontrol s) 2 ltac:(lia) Hu) as [H1 H2]. auto.
  - destruct (Hset (_displaycontrol s) 2 ltac:(lia)) as [H1 H2]. auto.
  - destruct (Hset (_displaycontrol s) 1 ltac:(lia)) as [H1 H2]. auto.
  - destruct (Hclr (_displaycontrol s) 1 ltac:(lia) Hu) as [H1 H2]. auto.
  - destruct (Hset (_displaycontrol s) 0 ltac:(lia)) as [H1 H2]. auto.
  - destruct (Hclr (_displaycontrol s) 0 ltac:(lia) Hu) as [H1 H2]. auto.
  - destruct (Hset (_entrymode s) 1 ltac:(lia)) as [H1 H2]. auto.
  - destruct (Hclr (_entrymode s) 1 ltac:(lia) Hu) as [H1 H2]. auto.
  - destruct (Hset (_entrymode s) 0 ltac:(lia)) as [H1 H2]. auto.
  - destruct (Hclr (_entrymode s) 0 ltac:(lia) Hu) as [H1 H2]. auto.
Qed.

(** ** The state after [begin] *)

(** X10. [begin] ignores [cols] and forgets the flags the object held:
    on two objects with the same address, masks and backlight level it
    makes the same calls and leaves the same object, with display control
    0x04, entry mode 0x02, the given line count and the backlight level
    kept. *)
Theorem begin_resets_flags (cols cols' lines : Z) (s1 s2 : LCD) :
  _i2cAddr s1 = _i2cAddr s2 -> same_masks s1 s2 -> _backlight s1 = _backlight s2 ->
  exists s' t,
    begin cols lines s1 = Some (tt, s', t) /\
    begin cols' lines s2 = Some (tt, s', t) /\
    _displaycontrol s' = 0x04 /\ _entrymode s' = 0x02 /\
    _lines s' = Some lines /\ _backlight s' = _backlight s1.
Proof.
  intros Ha (Hrs & Hrw & Hen & Hbl & Hdm) Hb.
  rewrite !begin_run. eexists _, _. split; [reflexivity|].
  split; [|repeat split].
  destruct s1, s2. cbn in Ha, Hrs, Hrw, Hen, Hbl, Hdm, Hb. subst.
  reflexivity.
Qed.

(** ** Glyph slots *)

Lemma createChar_log (location : Z) (charmap : list Z) (s : LCD) :
  (8 <= length charmap)%nat ->
  createChar location charmap s =
  Some (tt, s,
        frame_log s (Z.lor 0x40 (Z.shiftl (Z.land location 0x7) 3)) false
        ++ flat_map (fun v => frame_log s v true) (firstn 8 charmap)).
Proof.
  intros Hlen.
  do 8 (destruct charmap as [|? charmap]; [simpl in Hlen; lia|]).
  unfold createChar, write. cbn [forM_ seq nth_error]. run_calls.
  reflexivity.
Qed.

Lemma createChar_short (location : Z) (charmap : list Z) (s : LCD) :
  (length charmap < 8)%nat -> createChar location charmap s = None.
Proof.
  intros Hlen. unfold createChar, write.
  do 8 (destruct charmap as [|? charmap];
        [cbn [forM_ seq nth_error]; run_calls; reflexivity|]).
  simpl in Hlen. lia.
Qed.

Lemma cgram_address (location : Z) :
  Z.lor 0x40 (Z.shiftl (Z.land location 0x7) 3) = 0x40 + 8 * (location mod 8).
Proof.
  change 0x7 with (Z.ones 3). rewrite Z.land_ones by lia. change (2 ^ 3) with 8.
  pose proof (Z.mod_pos_bound location 8 ltac:(lia)) as Hm.
  set (m := location mod 8) in *. clearbody m.
  assert (Hc : m = 0 \/ m = 1 \/ m = 2 \/ m = 3 \/ m = 4 \/ m = 5 \/ m = 6 \/ m = 7) by lia.
  repeat (destruct Hc as [-> | Hc]; [reflexivity|]). subst. reflexivity.
Qed.

(** X11. [createChar(location, charmap)] reads exactly the first eight
    bytes of [charmap]: given at least eight, it sends the command
    [0x40 + 8 * (location mod 8)], so a location above 7 falls on slot
    [location mod 8], followed by the eight bytes as data frames, each call
    in a transmission of its own, and leaves the object as it is; given
    fewer than eight it reads past the array.  [createCharPgm] makes the
    same calls. *)
Theorem createChar_eight_bytes (location : Z) (charmap : list Z) (s : LCD) :
  ((8 <= length charmap)%nat ->
   createChar location charmap s =
     Some (tt, s,
           frame_log s (0x40 + 8 * (location mod 8)) false
           ++ flat_map (fun v => frame_log s v true) (firstn 8 charmap)) /\
   createChar location charmap s =
     createChar (location mod 8) (firstn 8 charmap) s) /\
  ((length charmap < 8)%nat -> createChar location charmap s = None) /\
  createCharPgm location charmap s = createChar location charmap s.
Proof.
  split; [|split; [apply createChar_short | reflexivity]].
  intros Hlen.
  assert (Hrun : createChar location charmap s =
     Some (tt, s,
           frame_log s (0x40 + 8 * (location mod 8)) false
           ++ flat_map (fun v => frame_log s v true) (firstn 8 charmap))).
  { rewrite createChar_log by assumption. rewrite cgram_address. reflexivity. }
  split; [exact Hrun|].
  rewrite Hrun, createChar_log.
  - rewrite cgram_address, Z.mod_mod by lia.
    rewrite firstn_firstn. reflexivity.
  - rewrite length_firstn. lia.
Qed.

(** ** The bus between calls *)

Lemma wire_run_done (t : list event) :
  forall d c,
    wire_run (d, c) t =
    match wire_run ([], c) t with
    | Some (x, c') => Some (d ++ x, c')
    | None => None
    end.
Proof.
  induction t as [|e t IH]; intros d c; cbn [wire_run].
  - rewrite app_nil_r. reflexivity.
  - destruct e, c as [cur|]; cbn [wire_step]; try reflexivity; try apply IH.
    rewrite (IH (d ++ [cur])), (IH ([] ++ [cur])).
    destruct (wire_run ([], None) t) as [[x c']|]; [|reflexivity].
    cbn [app]. rewrite <- app_assoc. reflexivity.
Qed.

Lemma transactions_app (t1 t2 : list event) (a b : list (list Z)) :
  transactions t1 = Some a -> transactions t2 = Some b ->
  transactions (t1 ++ t2) = Some (a ++ b).
Proof.
  unfold transactions. rewrite wire_run_app. intros H1 H2.
  destruct (wire_run ([], None) t1) as [[x [c|]]|]; try discriminate H1.
  injection H1 as ->. rewrite wire_run_done.
  destruct (wire_run ([], None) t2) as [[y [c|]]|]; try discriminate H2.
  injection H2 as ->. reflexivity.
Qed.

Lemma idle_app (addr : Z) (t1 t2 : list event) :
  idle_log addr t1 -> idle_log addr t2 -> idle_log addr (t1 ++ t2).
Proof.
  intros [[a Ha] A1] [[b Hb] A2]. split.
  - exists (a ++ b). apply transactions_app; assumption.
  - apply Forall_app. split; assumption.
Qed.

Lemma idle_frame_log (s : LCD) (v : Z) (d : bool) :
  idle_log (_i2cAddr s) (frame_log s v d).
Proof.
  split; [eexists; apply transactions_frame_log|].
  unfold frame_log, spec_frame. cbn [map app]. repeat constructor.
Qed.

Lemma idle_nibble_log (s : LCD) (v : Z) (d : bool) :
  idle_log (_i2cAddr s) (nibble_log s v d).
Proof.
  split; [eexists; reflexivity|]. unfold nibble_log. repeat constructor.
Qed.

Lemma idle_delay (addr us : Z) : idle_log addr [DelayMicroseconds us].
Proof. split; [eexists; reflexivity | repeat constructor]. Qed.

Lemma idle_nil (addr : Z) : idle_log addr [].
Proof. split; [eexists; reflexivity | constructor]. Qed.

Lemma idle_frames (s : LCD) (d : bool) (l : list Z) :
  idle_log (_i2cAddr s) (flat_map (fun v => frame_log s v d) l).
Proof.
  induction l as [|v l IH]; cbn [flat_map].
  - apply idle_nil.
  - apply idle_app; [apply idle_frame_log | exact IH].
Qed.

Lemma write_loop_addressed (BUFFER_LENGTH : Z) (buffer : list Z) (out1 : Z) (s : LCD) :
  forall c c' s' t,
    write_loop BUFFER_LENGTH buffer out1 c s = Some (c', s', t) ->
    addressed (_i2cAddr s) t.
Proof.
  induction buffer as [|v buffer IH]; intros c c' s' t H.
  - injection H as _ _ <-. constructor.
  - rewrite write_loop_cons in H.
    destruct (write_loop BUFFER_LENGTH buffer out1 _ s) as [[[c1 s1] t1]|] eqn:E;
      [|discriminate H].
    injection H as _ _ <-. apply IH in E.
    unfold addressed in *. apply Forall_app. split.
    + destruct (c =? 0); repeat constructor.
    + unfold data_frame. cbn [map app].
      repeat (apply Forall_cons; [exact Logic.I|]).
      apply Forall_app. split; [|exact E].
      destruct (BUFFER_LENGTH - 4 <=? u8 (c + 4)); repeat constructor.
Qed.

Lemma idle_write_buf (BUFFER_LENGTH : Z) (buffer : list Z) (s : LCD) :
  4 <= BUFFER_LENGTH <= 256 ->
  exists t,
    write_buf BUFFER_LENGTH buffer s = Some (Z.of_nat (length buffer), s, t) /\
    idle_log (_i2cAddr s) t.
Proof.
  intros HB.
  destruct (write_buf_bus BUFFER_LENGTH s buffer HB) as (t & txs & Hrun & Htx & _).
  exists t. split; [exact Hrun|]. split; [exists txs; exact Htx|].
  rewrite write_buf_unfold in Hrun. unfold bind in Hrun.
  destruct (write_loop BUFFER_LENGTH buffer (spec_base s true) 0 s)
    as [[[c1 s1] t1]|] eqn:E; [|discriminate Hrun].
  apply write_loop_addressed in E.
  unfold when, ret, Wire_endTransmission, emit in Hrun.
  unfold addressed in *.
  destruct (nz c1); inversion Hrun; subst;
    repeat (apply Forall_app; split); try exact E; repeat constructor.
Qed.

(** Close a goal [idle_log addr log] for a log built from frames. *)
Ltac idle_ok :=
  repeat lazymatch goal with
  | |- idle_log _ (frame_log _ _ _) => apply idle_frame_log
  | |- idle_log _ (nibble_log _ _ _) => apply idle_nibble_log
  | |- idle_log _ (flat_map _ _) => apply idle_frames
  | |- idle_log _ (_ ++ _) => apply idle_app
  | |- idle_log _ [] => apply idle_nil
  | |- idle_log _ _ => split; [eexists; reflexivity | repeat constructor]
  end.

Lemma run_idle (BUFFER_LENGTH : Z) (o : op) (s : LCD) :
  4 <= BUFFER_LENGTH <= 256 -> in_bounds o ->
  exists t,
    run BUFFER_LENGTH o s = Some (tt, post o s, t) /\ idle_log (_i2cAddr s) t.
Proof.
  intros HB Hin.
  destruct o; cbn [run in_bounds post] in *;
    unfold noDisplay, display, cursor, noCursor, blink, noBlink,
      leftToRight, rightToLeft, autoscroll, noAutoscroll,
      scrollDisplayLeft, scrollDisplayRight, command.
  - rewrite begin_run. eexists. split; [reflexivity|].
    unfold begin_log. idle_ok.
  - rewrite clear_run. eexists. split; [reflexivity | idle_ok].
  - rewrite home_run. eexists. split; [reflexivity | idle_ok].
  - rewrite setCursor_run by assumption. eexists. split; [reflexivity | idle_ok].
  - rewrite displaycontrol_clear_run. eexists. split; [reflexivity | idle_ok].
  - rewrite displaycontrol_set_run. eexists. split; [reflexivity | idle_ok].
  - rewrite displaycontrol_set_run. eexists. split; [reflexivity | idle_ok].
  - rewrite displaycontrol_clear_run. eexists. split; [reflexivity | idle_ok].
  - rewrite displaycontrol_set_run. eexists. split; [reflexivity | idle_ok].
  - rewrite displaycontrol_clear_run. eexists. split; [reflexivity | idle_ok].
  - rewrite _send_run. eexists. split; [reflexivity | idle_ok].
  - rewrite _send_run. eexists. split; [reflexivity | idle_ok].
  - rewrite entrymode_set_run. eexists. split; [reflexivity | idle_ok].
  - rewrite entrymode_clear_run. eexists. split; [reflexivity | idle_ok].
  - rewrite entrymode_set_run. eexists. split; [reflexivity | idle_ok].
  - rewrite entrymode_clear_run. eexists. split; [reflexivity | idle_ok].
  - rewrite setBacklight_run. eexists. split; [reflexivity | idle_ok].
  - rewrite createChar_log by assumption. eexists. split; [reflexivity | idle_ok].
  - change (createCharPgm location charmap s) with (createChar location charmap s).
    rewrite createChar_log by assumption. eexists. split; [reflexivity | idle_ok].
  - rewrite _send_run. eexists. split; [reflexivity | idle_ok].
  - unfold bind. rewrite write_run. eexists. split; [reflexivity | idle_ok].
  - unfold bind. destruct (idle_write_buf BUFFER_LENGTH buffer s HB) as (t & -> & Ht).
    eexists. split; [reflexivity|]. cbn [ret]. apply idle_app; [exact Ht | apply idle_nil].
Qed.

Lemma post_i2cAddr (o : op) (s : LCD) : _i2cAddr (post o s) = _i2cAddr s.
Proof. destruct o; reflexivity. Qed.

Lemma run_all_idle (BUFFER_LENGTH : Z) (os : list op) (s : LCD) :
  4 <= BUFFER_LENGTH <= 256 -> Forall in_bounds os ->
  exists s' t,
    run_all BUFFER_LENGTH os s = Some (tt, s', t) /\
    idle_log (_i2cAddr s) t /\ _i2cAddr s' = _i2cAddr s.
Proof.
  intros HB Hos. revert s. unfold run_all.
  induction Hos as [|o os Ho _ IH]; intros s; cbn [forM_].
  - exists s, []. split; [reflexivity|]. split; [apply idle_nil | reflexivity].
  - destruct (run_idle BUFFER_LENGTH o s HB Ho) as (t1 & H1 & I1).
    destruct (IH (post o s)) as (s' & t2 & H2 & I2 & A2).
    rewrite post_i2cAddr in I2, A2.
    exists s', (t1 ++ t2). unfold bind. rewrite H1, H2.
    split; [reflexivity|]. split; [apply idle_app; assumption | exact A2].
Qed.

Lemma wire_run_written (t : list event) :
  forall d c d' c',
    wire_run (d, c) t = Some (d', c') ->
    concat d' ++ open_bytes c' = concat d ++ open_bytes c ++ written t.
Proof.
  induction t as [|e t IH]; intros d c d' c' H; cbn [wire_run] in H.
  - injection H as <- <-. cbn [written flat_map]. rewrite app_nil_r. reflexivity.
  - destruct e, c as [cur|]; cbn [wire_step] in H; try discriminate H;
      apply IH in H; rewrite H; cbn [written flat_map open_bytes app];
      try reflexivity.
    + rewrite <- !app_assoc. reflexivity.
    + rewrite concat_app. cbn [concat]. rewrite app_nil_r, <- !app_assoc.
      reflexivity.
Qed.

(** X12. With a frame bound between 4 and 256, every sequence of calls
    (array reads in bounds) leaves the bus idle: each byte is written
    inside a transmission, no transmission is begun while one is open, each
    one is ended before the sequence returns, and each is addressed to the
    [_i2cAddr] given at construction, which no call changes. *)
Theorem bus_left_idle (BUFFER_LENGTH : Z) (os : list op) (s : LCD) :
  4 <= BUFFER_LENGTH <= 256 -> Forall in_bounds os ->
  exists s' t txs,
    run_all BUFFER_LENGTH os s = Some (tt, s', t) /\
    transactions t = Some txs /\
    concat txs = written t /\
    addressed (_i2cAddr s) t /\
    _i2cAddr s' = _i2cAddr s.
Proof.
  intros HB Hos.
  destruct (run_all_idle BUFFER_LENGTH os s HB Hos)
    as (s' & t & Hrun & [[txs Htx] Haddr] & Ha).
  exists s', t, txs. repeat (split; [assumption|]).
  split; [|split; assumption].
  unfold transactions in Htx.
  destruct (wire_run ([], None) t) as [[x [c|]]|] eqn:E; try discriminate Htx.
  injection Htx as ->. apply wire_run_written in E.
  cbn [concat open_bytes app] in E. rewrite app_nil_r in E. exact E.
Qed.

(** ** The backlight bit in every byte *)

Section LightBit.

Variable s : LCD.
Hypothesis apart : light_apart s.

Lemma light_base (d : bool) : light_follows s (spec_base s d).
Proof.
  destruct apart as (Hrs & _ & _). unfold light_follows, spec_base.
  rewrite Z.land_lor_distr_l.
  destruct (0 <? _backlight s), d;
    rewrite ?Hrs, ?Z.land_diag, ?Z.land_0_l, ?Z.lor_0_r; reflexivity.
Qed.

Lemma light_nibble (v first base : Z) :
  light_follows s base -> light_follows s (spec_nibble s v first base).
Proof.
  destruct apart as (_ & _ & Hd). unfold light_follows, spec_nibble.
  intros Hb. cbn [fold_left seq].
  repeat match goal with
  | |- context [if Z.testbit v ?k then _ else _] => destruct (Z.testbit v k)
  end; rewrite ?Z.land_lor_distr_l, ?Hd, ?Z.lor_0_r; exact Hb.
Qed.

Lemma light_enable (b : Z) :
  light_follows s b -> light_follows s (Z.lor b (_enable_mask s)).
Proof.
  destruct apart as (_ & Hen & _). unfold light_follows. intros Hb.
  rewrite Z.land_lor_distr_l, Hen, Z.lor_0_r. exact Hb.
Qed.

Lemma light_frame (v : Z) (d : bool) : Forall (light_follows s) (spec_frame s v d).
Proof.
  unfold spec_frame, spec_high, spec_low.
  repeat (apply Forall_cons;
          [auto using light_enable, light_nibble, light_base|]).
  apply Forall_nil.
Qed.

End LightBit.

(** X13. When the backlight has a bit of its own, every byte written by
    [_send], [_sendNibble], [_write2Wire] and [write(buffer, size)], the
    four functions through which all bytes go out, has the backlight bit
    high exactly when the stored level is above zero: each transfer
    re-asserts the light. *)
Theorem backlight_bit_in_every_byte (BUFFER_LENGTH : Z) (s : LCD) :
  light_apart s ->
  (forall v d t, log_of (_send v d s) = Some t ->
     Forall (light_follows s) (written t)) /\
  (forall v d t, log_of (_sendNibble v d s) = Some t ->
     Forall (light_follows s) (written t)) /\
  (forall byte t, log_of (_write2Wire byte s) = Some t ->
     Forall (light_follows s) (written t)) /\
  (forall buffer t, log_of (write_buf BUFFER_LENGTH buffer s) = Some t ->
     Forall (light_follows s) (written t)).
Proof.
  intros Hs. split; [|split; [|split]].
  - intros v d t. rewrite _send_run. intros [= <-].
    exact (light_frame s Hs v d).
  - intros v d t. rewrite _sendNibble_run. intros [= <-].
    unfold nibble_log, spec_low. cbn [written flat_map app].
    repeat (apply Forall_cons;
            [auto using light_enable, light_nibble, light_base|]).
    apply Forall_nil.
  - intros byte t. rewrite _write2Wire_run. intros [= <-].
    cbn [written flat_map app]. apply Forall_cons; [|apply Forall_nil].
    pose proof (light_base s Hs true) as Hb. unfold spec_base in Hb.
    rewrite Z.lor_comm in Hb. exact Hb.
  - intros buffer t Ht.
    destruct (write_buf_total BUFFER_LENGTH buffer s) as (t' & Hrun & Hw).
    rewrite Hrun in Ht. injection Ht as <-. rewrite Hw.
    clear Hrun Hw. induction buffer as [|v buffer IH]; cbn [flat_map].
    + apply Forall_nil.
    + apply Forall_app. split; [exact (light_frame s Hs v true) | exact IH].
Qed.

(** ** The further theorems at concrete inputs *)

Lemma default_data_lines_apart : data_lines_apart default_pins.
Proof.
  split.
  - intros d Hd. destruct d; try discriminate Hd; simpl; lia.
  - intros d s Hd Hsd Hrw Hen.
    destruct d; try discriminate Hd; destruct s;
      try (elim Hsd; reflexivity); try (elim Hrw; reflexivity);
      try (elim Hen; reflexivity); cbv; discriminate.
Qed.

(** The character 'H' read back on the default wiring. *)
Lemma send_round_trip_witness :
  data_lines_apart default_pins /\ is_u8 0x48 /\
  exists f,
    _send 0x48 true (new_default 0x27) =
      Some (tt, new_default 0x27,
            BeginTransmission 0x27 :: map WireWrite f ++ [EndTransmission]) /\
    decode_frame (new_default 0x27) f = Some 0x48.
Proof.
  assert (Hv : is_u8 0x48) by (unfold is_u8; lia).
  assert (Hm : same_masks (init_pins 0x27 default_pins) (new_default 0x27))
    by (repeat split).
  split; [exact default_data_lines_apart|]. split; [exact Hv|].
  exact (send_round_trip 0x27 default_pins (new_default 0x27) 0x48 true
           default_data_lines_apart Hm Hv).
Defined.

(** "Hi" and a 32 byte buffer. *)
Lemma write_buf_single_transmission_witness :
  4 <= 32 <= 256 /\ 4 * Z.of_nat (length [0x48; 0x69]) < 32 /\
  write_buf 32 [0x48; 0x69] (new_default 0x27) =
    Some (2, new_default 0x27,
          BeginTransmission 0x27
            :: map WireWrite
                 (flat_map (fun v => spec_frame (new_default 0x27) v true) [0x48; 0x69])
            ++ [EndTransmission]).
Proof.
  assert (HB : 4 <= 32 <= 256) by lia.
  assert (Hfit : 4 * Z.of_nat (length [0x48; 0x69]) < 32) by (simpl; lia).
  split; [exact HB|]. split; [exact Hfit|].
  exact (write_buf_single_transmission 32 (new_default 0x27) [0x48; 0x69] HB Hfit).
Defined.

(** Column 200 of row 1 lands on address 8. *)
Lemma setCursor_address_wraps_witness :
  0 <= 1 <= 3 /\
  setCursor 200 1 (new_default 0x27) = _send 0x88 false (new_default 0x27).
Proof.
  assert (Hr : 0 <= 1 <= 3) by lia.
  split; [exact Hr|].
  destruct (setCursor_address_wraps (new_default 0x27) 200 1 Hr) as [E _].
  exact E.
Defined.

Lemma only_wired_bits_driven_witness :
  Forall in_bounds [Begin 20 4; SetCursor 0 3; Write 0x41] /\
  exists s' t,
    run_all 32 [Begin 20 4; SetCursor 0 3; Write 0x41]
            (init_pins 0x27 (mkPins 4 5 7 0 1 2 3 255)) = Some (tt, s', t) /\
    Forall (within (wired (init_pins 0x27 (mkPins 4 5 7 0 1 2 3 255)))) (written t).
Proof.
  assert (Hos : Forall in_bounds [Begin 20 4; SetCursor 0 3; Write 0x41]).
  { repeat constructor; simpl; lia. }
  split; [exact Hos|].
  destruct (only_wired_bits_driven 32 0x27 (mkPins 4 5 7 0 1 2 3 255)
              [Begin 20 4; SetCursor 0 3; Write 0x41] Hos)
    as (s' & t & Hrun & _ & Hb).
  exists s', t. split; assumption.
Defined.

Lemma new_default_flags_ok : flags_ok (new_default 0x27).
Proof. unfold flags_ok. simpl. lia. Qed.

Lemma flags_stay_in_range_witness :
  flags_ok (new_default 0x27) /\
  exists s' t,
    run_all 32 [Cursor; Blink; NoDisplay; Autoscroll; RightToLeft] (new_default 0x27) =
      Some (tt, s', t) /\
    0 <= _displaycontrol s' <= 7 /\ 0 <= _entrymode s' <= 3.
Proof.
  split; [exact new_default_flags_ok|].
  destruct (flags_stay_in_range 32 [Cursor; Blink; NoDisplay; Autoscroll; RightToLeft]
              (new_default 0x27) new_default_flags_ok ltac:(repeat constructor))
    as (s' & t & Hrun & Hd & He & _).
  exists s', t. repeat split; assumption || apply Hd || apply He.
Defined.

Lemma call_changes_own_member_witness :
  in_bounds Blink /\
  exists s' t,
    run 32 Blink (new_default 0x27) = Some (tt, s', t) /\
    _entrymode s' = _entrymode (new_default 0x27) /\
    _backlight s' = _backlight (new_default 0x27).
Proof.
  split; [exact Logic.I|].
  destruct (call_changes_own_member 32 Blink (new_default 0x27) Logic.I)
    as (s' & t & Hrun & _ & _ & Hb & _ & He & _).
  exists s', t. split; [exact Hrun|]. split.
  - apply He. reflexivity.
  - apply Hb. intros b. discriminate.
Defined.

Lemma flag_function_effect_witness :
  flag_effect NoCursor = Some (1, false) /\
  is_u8 (flag_byte NoCursor (new_default 0x27)) /\
  exists s' t,
    run 32 NoCursor (new_default 0x27) = Some (tt, s', t) /\
    Z.testbit (flag_byte NoCursor s') 1 = false.
Proof.
  assert (Hu : is_u8 (flag_byte NoCursor (new_default 0x27)))
    by (change (is_u8 0x04); unfold is_u8; lia).
  split; [reflexivity|]. split; [exact Hu|].
  destruct (flag_function_effect 32 NoCursor 1 false (new_default 0x27) eq_refl Hu)
    as (s' & t & Hrun & Hbit & _).
  exists s', t. split; assumption.
Defined.

Lemma begin_resets_flags_witness :
  same_masks (new_default 0x27) (set_displaycontrol 0x07 (new_default 0x27)) /\
  exists s' t,
    begin 16 2 (new_default 0x27) = Some (tt, s', t) /\
    begin 20 2 (set_displaycontrol 0x07 (new_default 0x27)) = Some (tt, s', t) /\
    _displaycontrol s' = 0x04.
Proof.
  assert (Hm : same_masks (new_default 0x27) (set_displaycontrol 0x07 (new_default 0x27)))
    by (repeat split).
  split; [exact Hm|].
  destruct (begin_resets_flags 16 20 2 (new_default 0x27)
              (set_displaycontrol 0x07 (new_default 0x27)) eq_refl Hm eq_refl)
    as (s' & t & H1 & H2 & Hd & _).
  exists s', t. repeat split; assumption.
Defined.

Lemma bus_left_idle_witness :
  4 <= 32 <= 256 /\
  exists s' t txs,
    run_all 32 [Begin 16 2; WriteBuf [72; 101; 108; 108; 111; 32; 76; 67; 68]; Home]
            (new_default 0x27) = Some (tt, s', t) /\
    transactions t = Some txs /\ addressed 0x27 t.
Proof.
  assert (HB : 4 <= 32 <= 256) by lia.
  split; [exact HB|].
  destruct (bus_left_idle 32
              [Begin 16 2; WriteBuf [72; 101; 108; 108; 111; 32; 76; 67; 68]; Home]
              (new_default 0x27) HB ltac:(repeat constructor))
    as (s' & t & txs & Hrun & Htx & _ & Ha & _).
  exists s', t, txs. repeat split; assumption.
Defined.

Lemma new_default_light_apart : light_apart (set_backlight 255 (new_default 0x27)).
Proof.
  split; [reflexivity|]. split; [reflexivity|].
  intros i. destruct i as [|[|[|[|[|i]]]]]; reflexivity.
Qed.

(** With the light on, the frame of 'H' has bit 3 high in all four bytes. *)
Lemma backlight_bit_in_every_byte_witness :
  light_apart (set_backlight 255 (new_default 0x27)) /\
  Forall (light_follows (set_backlight 255 (new_default 0x27)))
         [0x4D; 0x49; 0x8D; 0x89].
Proof.
  split; [exact new_default_light_apart|].
  destruct (backlight_bit_in_every_byte 32 (set_backlight 255 (new_default 0x27))
              new_default_light_apart) as (Hsend & _).
  exact (Hsend 0x48 true _ eq_refl).
Defined.

(** ** Further tests on concrete inputs *)

(** Eight characters make exactly 32 bytes, yet the flush at 28 splits
    them: the last four bytes of the buffer are never used. *)
Example write_eight_characters :
  option_map (map (@length Z))
    (match log_of (write_buf 32 [72; 101; 108; 108; 111; 32; 76; 67]
                     (new_default 0x27)) with
     | Some t => transactions t
     | None => None
     end) = Some [28%nat; 4%nat].
Proof. vm_compute. reflexivity. Qed.

(** An empty buffer makes no call to [Wire]. *)
Example write_nothing (bound : Z) (s : LCD) : write_buf bound [] s = Some (0, s, []).
Proof. reflexivity. Qed.

(** Above a bound of 259 the [uint8_t] counter wraps to 0 before the
    threshold is met: a second transmission is begun inside the first. *)
Example counter_wraps :
  match log_of (write_buf 300 (repeat 0x20 65) (new_default 0x27)) with
  | Some t => transactions t
  | None => None
  end = None.
Proof. vm_compute. reflexivity. Qed.

(** The flush count for some frame bounds: 28 of the 32 bytes of the AVR
    buffer are used, and a bound of 4 still lets one character through. *)
Example chunk_bytes_values :
  chunk_bytes 4 = 4 /\ chunk_bytes 8 = 4 /\ chunk_bytes 9 = 8 /\
  chunk_bytes 30 = 28 /\ chunk_bytes 32 = 28 /\ chunk_bytes 33 = 32 /\
  chunk_bytes 128 = 124 /\ chunk_bytes 256 = 252.
Proof. repeat split. Qed.
